(** * pytanque: the petanque client (src/pytanque/client.py)

    A shallow embedding of the [Pytanque] class: the request/response
    correlation of [query], the chunked receive loop, and the proof-state
    stack driven by [start], [run_tac], [goals], [premises], [backtrack]
    and [reset].

    Python integers are unbounded, so they are [Z].  Byte strings are
    [list Byte.byte], text is [string].  The deque [self.queue] is a list
    whose right end (the end [append] and [pop] work on) is the last
    element.  A method is a function from the object's state to an
    outcome that carries the state it leaves behind: Python keeps every
    mutation made before an exception is raised.

    The calls to the logger are left out: they change nothing in the
    object.  What a log line evaluates is kept where it can raise: the
    [len(res.value)] of [premises].  [connect], [close], [__enter__] and [__exit__] only open and
    close the socket; what the socket does once it is in use (a send that
    fails, a read that fails or never returns) is part of the socket
    here. *)

From Stdlib Require Import ZArith List String Ascii Bool Lia.
From Stdlib Require Import DecimalString DecimalZ.
Import ListNotations.

Local Open Scope string_scope.
Local Open Scope list_scope.
Local Open Scope Z_scope.

Definition bytes := list Byte.byte.

(** ** Exceptions *)

(** The exception classes the client meets.  [ValueError] stands for the
    class and its subclasses ([UnicodeDecodeError], [json.JSONDecodeError]);
    [OSError] is what the socket raises; [PetanqueError] is the only class
    the client defines and raises itself. *)
Inductive exn : Type :=
| PetanqueError (msg : string)
| ValueError (msg : string)
| IndexError (msg : string)
| OSError (msg : string)
| OtherException (cls : string) (msg : string).

(** [except ValueError] *)
Definition is_ValueError (e : exn) : bool :=
  match e with
  | ValueError _ => true
  | _ => false
  end.

(** ** Values *)

(** What [json.loads] produces, and so what the untyped [result] of a
    response (typed [Any]) may hold; floats are left out. *)
#[local] Set Warnings "-register-all".
Inductive json : Type :=
| JNull
| JBool (b : bool)
| JInt (n : Z)
| JString (s : string)
| JList (items : list json)
| JObject (fields : list (string * json)).

(** [str(n)] for an integer, as the f-strings print it. *)
Definition str_of_int (n : Z) : string :=
  NilZero.string_of_int (Z.to_int n).

(** ** The protocol types (declared in pytanque/protocol.py) *)

(** Modelled from the spec: the parameter classes of protocol.py, with the
    constructor arguments the call sites of client.py give them.
    [UnknownParams] stands for any other object handed to [mk_request]. *)
Inductive Params : Type :=
| InitParams (uri : string)
| StartParams (env : json) (uri : string) (thm : string)
| RunParams (st : json) (tac : string)
| GoalsParams (st : json)
| PremisesParams (st : json)
| UnknownParams.

Module Request.
(** Modelled from the spec: protocol.py's [Request(id, method, params)]. *)
Record t : Type := mk { id : Z; method : string; params : json }.
End Request.

Module Response.
(** Modelled from the spec: protocol.py's [Response], [{id, result}]. *)
Record t : Type := mk { id : Z; result : json }.
End Response.

Module Failure.
(** Modelled from the spec: protocol.py's [Failure], [{error}]. *)
Record t : Type := mk { error : string }.
End Failure.

(** Modelled from the spec: the value of protocol.py's [RunResponse].
    [OtherValue] stands for whatever else the decoder may produce, the
    [case _] of [run_tac]. *)
Inductive RunValue : Type :=
| CurrentState (st : json)
| ProofFinished (st : json)
| OtherValue (v : json).

Module RunResponse.
Record t : Type := mk { value : RunValue }.
End RunResponse.

(** The encoders and decoders of protocol.py and of the Python library,
    which client.py calls and does not define.  A decoder returns its
    value or the exception it raises. *)
Class Protocol : Type := {
  GoalsResponse : Type;
  PremisesResponse : Type;
  PremisesValue : Type;
  (** [res.value] of a [PremisesResponse] *)
  PremisesResponse_value : PremisesResponse -> PremisesValue;
  (** [len(v)]: the length, or the TypeError of a value that has none *)
  PremisesValue_len : PremisesValue -> exn + Z;
  Params_to_json : Params -> json;
  Request_to_json : Request.t -> json;
  json_dumps : json -> string;
  str_encode : string -> bytes;
  bytes_decode : bytes -> exn + string;
  Response_from_json_string : string -> exn + Response.t;
  Failure_from_json_string : string -> exn + Failure.t;
  RunResponse_from_json : json -> exn + RunResponse.t;
  GoalsResponse_from_json : json -> exn + GoalsResponse;
  PremisesResponse_from_json : json -> exn + PremisesResponse;
  (** [pathlib.Path(os.path.abspath(p)).as_uri()] *)
  path_as_uri : string -> string
}.

(** ** mk_request *)

Definition mk_request `{Protocol} (id : Z) (params : Params) : exn + Request.t :=
  match params with
  | InitParams _ => inr (Request.mk id "petanque/init" (Params_to_json params))
  | StartParams _ _ _ => inr (Request.mk id "petanque/start" (Params_to_json params))
  | RunParams _ _ => inr (Request.mk id "petanque/run" (Params_to_json params))
  | GoalsParams _ => inr (Request.mk id "petanque/goals" (Params_to_json params))
  | PremisesParams _ => inr (Request.mk id "petanque/premises" (Params_to_json params))
  | UnknownParams => inl (PetanqueError "Invalid request params")
  end.

(** ** State *)

Module State.
(** Prover state and action to be performed.  The annotation says
    [id: int]; nothing checks it, and [start] stores the response's
    [result] there as it comes. *)
Record t : Type := mk { id : json; action : string }.
End State.

(** ** The socket *)

(** What one [recv] call does: it returns a chunk or raises. *)
Inductive recv_event : Type :=
| Chunk (data : bytes)
| RecvError (e : exn).

Module Socket.
(** The connection as the client sees it: [sent] lists the payloads
    handed to [sendall], oldest first; [send_faults] and [incoming] are
    what the calls still to come will do.  [send_faults] gives, call by
    call, the exception [sendall] raises ([None], or a used-up list: it
    succeeds); [incoming] gives, call by call, what [recv] returns, and a
    used-up list means that [recv] blocks for ever. *)
Record t : Type := mk {
  sent : list bytes;
  send_faults : list (option exn);
  incoming : list recv_event
}.

(** [socket.socket(...)]: nothing sent yet. *)
Definition socket (faults : list (option exn)) (inc : list recv_event) : t :=
  mk [] faults inc.

(** [sendall(payload)]: the socket afterwards and the exception raised,
    if any. *)
Definition sendall (payload : bytes) (s : t) : t * option exn :=
  match send_faults s with
  | [] => (mk (sent s ++ [payload]) [] (incoming s), None)
  | fault :: rest => (mk (sent s ++ [payload]) rest (incoming s), fault)
  end.
End Socket.

(** The result of the receive loop of [query]. *)
Inductive received : Type :=
| Received (fragments : list bytes) (rest : list recv_event)
| RecvRaised (e : exn) (rest : list recv_event)
| RecvBlocked.

(** [while True: chunk = recv(size); fragments.append(chunk);
    if len(chunk) < size: break] *)
Fixpoint recv_loop (size : Z) (inc : list recv_event) (fragments : list bytes)
  : received :=
  match inc with
  | [] => RecvBlocked
  | RecvError e :: rest => RecvRaised e rest
  | Chunk chunk :: rest =>
      let fragments := fragments ++ [chunk] in
      if Z.of_nat (List.length chunk) <? size
      then Received fragments rest
      else recv_loop size rest fragments
  end.

(** [b"".join(fragments)] *)
Definition join (fragments : list bytes) : bytes := List.concat fragments.

(** ** The deque *)

(** [deque.pop()]: the rest and the rightmost element, [None] when the
    deque is empty (Python raises IndexError). *)
Fixpoint deque_pop {A : Type} (q : list A) : option (list A * A) :=
  match q with
  | [] => None
  | x :: q' =>
      match deque_pop q' with
      | None => Some ([], x)
      | Some (r, y) => Some (x :: r, y)
      end
  end.

(** [q[-1]] *)
Definition deque_top {A : Type} (q : list A) : option A :=
  match deque_pop q with
  | Some (_, x) => Some x
  | None => None
  end.

(** ** The client *)

Module Pytanque.

Record t : Type := mk {
  host : string;
  port : Z;
  id : Z;
  socket : Socket.t;
  queue : list State.t;
  env : json;
  file : string;
  thm : string
}.

Definition set_id (v : Z) (self : t) : t :=
  mk (host self) (port self) v (socket self) (queue self) (env self)
     (file self) (thm self).
Definition set_socket (v : Socket.t) (self : t) : t :=
  mk (host self) (port self) (id self) v (queue self) (env self)
     (file self) (thm self).
Definition set_queue (v : list State.t) (self : t) : t :=
  mk (host self) (port self) (id self) (socket self) v (env self)
     (file self) (thm self).
Definition set_env (v : json) (self : t) : t :=
  mk (host self) (port self) (id self) (socket self) (queue self) v
     (file self) (thm self).
Definition set_file (v : string) (self : t) : t :=
  mk (host self) (port self) (id self) (socket self) (queue self) (env self)
     v (thm self).
Definition set_thm (v : string) (self : t) : t :=
  mk (host self) (port self) (id self) (socket self) (queue self) (env self)
     (file self) v.

(** How a method call ends: it returns a value, raises, or never comes
    back (a [recv] that blocks for ever).  Each case carries the object
    as the call left it. *)
Inductive outcome (A : Type) : Type :=
| Return (a : A) (self : t)
| Raise (e : exn) (self : t)
| Block (self : t).
Arguments Return {A} a self.
Arguments Raise {A} e self.
Arguments Block {A} self.

Definition final {A : Type} (o : outcome A) : t :=
  match o with
  | Return _ self | Raise _ self | Block self => self
  end.

Definition M (A : Type) : Type := t -> outcome A.

Definition ret {A : Type} (a : A) : M A := fun self => Return a self.

Definition bind {A B : Type} (m : M A) (k : A -> M B) : M B :=
  fun self =>
    match m self with
    | Return a self' => k a self'
    | Raise e self' => Raise e self'
    | Block self' => Block self'
    end.

Definition raise {A : Type} (e : exn) : M A := fun self => Raise e self.

Definition gets {A : Type} (f : t -> A) : M A := fun self => Return (f self) self.

Definition update (f : t -> t) : M unit := fun self => Return tt (f self).

(** The value of a call into protocol.py, or its exception. *)
Definition lift {A : Type} (r : exn + A) : M A :=
  match r with
  | inl e => raise e
  | inr a => ret a
  end.

(** [try: body except <caught>: handler] *)
Definition try_except {A : Type} (body : M A) (caught : exn -> bool)
  (handler : M A) : M A :=
  fun self =>
    match body self with
    | Raise e self' => if caught e then handler self' else Raise e self'
    | o => o
    end.

Declare Scope py_scope.
Delimit Scope py_scope with py.
Notation "x <- m ;; k" := (bind m (fun x => k))
  (at level 100, m at next level, right associativity) : py_scope.
Notation "m ;; k" := (bind m (fun _ => k))
  (at level 100, right associativity) : py_scope.
Local Open Scope py_scope.

(** [Pytanque(host, port)].  The socket it creates has sent nothing;
    [faults] and [inc] are what the peer will do to it. *)
Definition __init__ (host : string) (port : Z)
  (faults : list (option exn)) (inc : list recv_event) : t :=
  mk host port 0 (Socket.socket faults inc) [] (JInt 0) "" "".

Section Methods.
Context `{Protocol}.

(** [self.socket.sendall(payload)] *)
Definition sendall (payload : bytes) : M unit :=
  fun self =>
    match Socket.sendall payload (socket self) with
    | (sock, None) => Return tt (set_socket sock self)
    | (sock, Some e) => Raise e (set_socket sock self)
    end.

(** The receive loop of [query] and the join that follows it. *)
Definition receive (size : Z) : M bytes :=
  fun self =>
    let sock := socket self in
    let left rest :=
      set_socket (Socket.mk (Socket.sent sock) (Socket.send_faults sock) rest) self in
    match recv_loop size (Socket.incoming sock) [] with
    | Received fragments rest => Return (join fragments) (left rest)
    | RecvRaised e rest => Raise e (left rest)
    | RecvBlocked => Block (left [])
    end.

(** Send a query to the server using JSON-RPC protocol. *)
Definition query (params : Params) (size : Z) : M Response.t :=
  update (fun self => set_id (id self + 1) self) ;;
  self_id <- gets id ;;
  request <- lift (mk_request self_id params) ;;
  let payload :=
    str_encode (json_dumps (Request_to_json request) ++ String "010" "")%string in
  sendall payload ;;
  raw <- receive size ;;
  try_except
    (text <- lift (bytes_decode raw) ;;
     resp <- lift (Response_from_json_string text) ;;
     self_id <- gets id ;;
     if negb (Response.id resp =? self_id)
     then raise (PetanqueError
                   ("Sent request " ++ str_of_int self_id ++
                    ", got response " ++ str_of_int (Response.id resp))%string)
     else ret resp)
    is_ValueError
    (text <- lift (bytes_decode raw) ;;
     failure <- lift (Failure_from_json_string text) ;;
     raise (PetanqueError (Failure.error failure))).

(** Return the current state of the prover. *)
Definition current_state : M json :=
  fun self =>
    match deque_top (queue self) with
    | Some st => Return (State.id st) self
    | None => Raise (IndexError "deque index out of range") self
    end.

(** Initialize Rocq enviorment (must only be called once). *)
Definition init (root : string) : M unit :=
  let uri := path_as_uri root in
  resp <- query (InitParams uri) 1024 ;;
  update (set_env (Response.result resp)).

(** Start the proof of [thm] defined in [file]. *)
Definition start (file thm : string) : M unit :=
  update (set_file file) ;;
  update (set_thm thm) ;;
  update (set_queue []) ;;
  let uri := path_as_uri file in
  self_env <- gets env ;;
  self_thm <- gets Pytanque.thm ;;
  resp <- query (StartParams self_env uri self_thm) 1024 ;;
  update (fun self =>
            set_queue (queue self ++ [State.mk (Response.result resp) "Start"]) self).

(** Execute on tactic. *)
Definition run_tac (tac : string) : M RunValue :=
  st <- current_state ;;
  resp <- query (RunParams st tac) 1024 ;;
  res <- lift (RunResponse_from_json (Response.result resp)) ;;
  match RunResponse.value res with
  | CurrentState st =>
      update (fun self => set_queue (queue self ++ [State.mk st tac]) self)
  | ProofFinished st =>
      update (fun self => set_queue (queue self ++ [State.mk st tac]) self)
  | OtherValue _ => raise (PetanqueError "Invalid proof state")
  end ;;
  ret (RunResponse.value res).

(** Return the list of current goals. *)
Definition goals : M GoalsResponse :=
  st <- current_state ;;
  resp <- query (GoalsParams st) 1024 ;;
  res <- lift (GoalsResponse_from_json (Response.result resp)) ;;
  ret res.

(** Return the list of accessible premises.  The log line takes
    [len(res.value)] before the value is returned. *)
Definition premises : M PremisesValue :=
  st <- current_state ;;
  resp <- query (PremisesParams st) 1024 ;;
  res <- lift (PremisesResponse_from_json (Response.result resp)) ;;
  _ <- lift (PremisesValue_len (PremisesResponse_value res)) ;;
  ret (PremisesResponse_value res).

(** Rollback one step of the proof. *)
Definition backtrack : M (json * string) :=
  fun self =>
    match deque_pop (queue self) with
    | Some (rest, st) => Return (State.id st, State.action st) (set_queue rest self)
    | None => Raise (IndexError "pop from an empty deque") self
    end.

Definition reset : M unit :=
  self_file <- gets file ;;
  self_thm <- gets thm ;;
  start self_file self_thm.

End Methods.
End Pytanque.

Import Pytanque.
Local Open Scope py_scope.

(** The bytes [query] hands to [sendall] for a request. *)
Definition payload `{Protocol} (request : Request.t) : bytes :=
  str_encode (json_dumps (Request_to_json request) ++ String "010" "")%string.

(** Lines 115 to 125 of [query]: number the request, send it, and collect
    the reply. *)
Definition transmit `{Protocol} (params : Params) (size : Z) : M bytes :=
  update (fun self => set_id (id self + 1) self) ;;
  self_id <- gets id ;;
  request <- lift (mk_request self_id params) ;;
  sendall (payload request) ;;
  receive size.

(** [Response.from_json_string(raw.decode())] and
    [Failure.from_json_string(raw.decode())] *)
Definition Response_of_bytes `{Protocol} (raw : bytes) : exn + Response.t :=
  match bytes_decode raw with
  | inl e => inl e
  | inr text => Response_from_json_string text
  end.

Definition Failure_of_bytes `{Protocol} (raw : bytes) : exn + Failure.t :=
  match bytes_decode raw with
  | inl e => inl e
  | inr text => Failure_from_json_string text
  end.

(** Lines 126 to 133 of [query]: the [try] block that reads the reply. *)
Definition parse_reply `{Protocol} (raw : bytes) : M Response.t :=
  try_except
    (text <- lift (bytes_decode raw) ;;
     resp <- lift (Response_from_json_string text) ;;
     self_id <- gets id ;;
     if negb (Response.id resp =? self_id)
     then raise (PetanqueError
                   ("Sent request " ++ str_of_int self_id ++
                    ", got response " ++ str_of_int (Response.id resp))%string)
     else ret resp)
    is_ValueError
    (text <- lift (bytes_decode raw) ;;
     failure <- lift (Failure_from_json_string text) ;;
     raise (PetanqueError (Failure.error failure))).

(** The message of the id mismatch. *)
Definition mismatch_message (sent_id got_id : Z) : string :=
  ("Sent request " ++ str_of_int sent_id ++ ", got response " ++ str_of_int got_id)%string.

(** ** Sequences of calls *)

(** The public methods a caller drives the session with. *)
Inductive call : Type :=
| Init (root : string)
| Start (file thm : string)
| RunTac (tac : string)
| Goals
| Premises
| Backtrack
| Reset.

Definition exec `{Protocol} (c : call) : M unit :=
  match c with
  | Init root => init root
  | Start file thm => start file thm
  | RunTac tac => (_ <- run_tac tac ;; ret tt)
  | Goals => (_ <- goals ;; ret tt)
  | Premises => (_ <- premises ;; ret tt)
  | Backtrack => (_ <- backtrack ;; ret tt)
  | Reset => reset
  end.

(** The caller makes the calls one after the other, going on after a call
    that raised (it may catch the exception); after a call that never
    returns there is no next call. *)
Fixpoint run `{Protocol} (cs : list call) (self : t) : t :=
  match cs with
  | [] => self
  | c :: cs' =>
      match exec c self with
      | Return _ self' => run cs' self'
      | Raise _ self' => run cs' self'
      | Block self' => self'
      end
  end.

(** The calls of [cs] that returned, when [cs] is run from [self]. *)
Fixpoint returned `{Protocol} (cs : list call) (self : t) : list call :=
  match cs with
  | [] => []
  | c :: cs' =>
      match exec c self with
      | Return _ self' => c :: returned cs' self'
      | Raise _ self' => returned cs' self'
      | Block _ => []
      end
  end.

Definition is_RunTac (c : call) : bool :=
  match c with
  | RunTac _ => true
  | _ => false
  end.

(** Calls that neither restart the proof nor undo a step. *)
Definition keeps_history (c : call) : bool :=
  match c with
  | Init _ | RunTac _ | Goals | Premises => true
  | Start _ _ | Backtrack | Reset => false
  end.

(** ** A stand-in for protocol.py

    The theorems below hold for every [Protocol].  To run the client on
    concrete replies, this instance reads a compact notation instead of
    JSON text: a reply is [<id> int <n>], [<id> list <n>] (a list of [n]
    items), [<id> <Tag> <n>] or [error <word>]. *)
Module Compact.

Fixpoint split_acc (sep : ascii) (s : string) (word : string) : list string :=
  match s with
  | EmptyString => [word]
  | String c s' =>
      if Ascii.eqb c sep
      then word :: split_acc sep s' ""
      else split_acc sep s' (word ++ String c "")%string
  end.

Definition words (s : string) : list string := split_acc " " s "".

Definition int_of_str (s : string) : option Z :=
  option_map Z.of_int (NilZero.int_of_string s).

Fixpoint dumps (j : json) : string :=
  match j with
  | JNull => "null"
  | JBool true => "true"
  | JBool false => "false"
  | JInt n => str_of_int n
  | JString s => "'" ++ s ++ "'"
  | JList items => "[" ++ String.concat ", " (map dumps items) ++ "]"
  | JObject fields =>
      "{" ++ String.concat ", "
               (map (fun kv => "'" ++ fst kv ++ "': " ++ dumps (snd kv)) fields)
          ++ "}"
  end%string.

Definition params_to_json (p : Params) : json :=
  match p with
  | InitParams uri => JObject [("uri", JString uri)]
  | StartParams env uri thm =>
      JObject [("env", env); ("uri", JString uri); ("thm", JString thm)]
  | RunParams st tac => JObject [("st", st); ("tac", JString tac)]
  | GoalsParams st => JObject [("st", st)]
  | PremisesParams st => JObject [("st", st)]
  | UnknownParams => JNull
  end.

Definition request_to_json (r : Request.t) : json :=
  JObject [("id", JInt (Request.id r)); ("method", JString (Request.method r));
           ("params", Request.params r)].

Definition response_of_string (s : string) : exn + Response.t :=
  match words s with
  | [i; tag; n] =>
      match int_of_str i, int_of_str n with
      | Some i, Some n =>
          if String.eqb tag "int"
          then inr (Response.mk i (JInt n))
          else if String.eqb tag "list"
          then inr (Response.mk i (JList (repeat JNull (Z.to_nat n))))
          else inr (Response.mk i (JObject [(tag, JInt n)]))
      | _, _ => inl (ValueError "bad integer")
      end
  | _ => inl (ValueError "missing field")
  end.

Definition failure_of_string (s : string) : exn + Failure.t :=
  match words s with
  | [tag; msg] =>
      if String.eqb tag "error"
      then inr (Failure.mk msg)
      else inl (ValueError "missing field error")
  | _ => inl (ValueError "missing field error")
  end.

Definition run_response_of_json (j : json) : exn + RunResponse.t :=
  match j with
  | JObject [(tag, st)] =>
      if String.eqb tag "CurrentState" then inr (RunResponse.mk (CurrentState st))
      else if String.eqb tag "ProofFinished" then inr (RunResponse.mk (ProofFinished st))
      else inr (RunResponse.mk (OtherValue st))
  | _ => inl (ValueError "not a run response")
  end.

(** [len] of a JSON value: texts, lists and objects have one. *)
Definition len_json (j : json) : exn + Z :=
  match j with
  | JString s => inr (Z.of_nat (String.length s))
  | JList items => inr (Z.of_nat (List.length items))
  | JObject fields => inr (Z.of_nat (List.length fields))
  | JNull | JBool _ | JInt _ => inl (OtherException "TypeError" "object has no len()")
  end.

#[local] Instance protocol : Protocol := {|
  GoalsResponse := json;
  PremisesResponse := json;
  PremisesValue := json;
  PremisesResponse_value := fun res => res;
  PremisesValue_len := len_json;
  Params_to_json := params_to_json;
  Request_to_json := request_to_json;
  json_dumps := dumps;
  str_encode := list_byte_of_string;
  bytes_decode := fun raw => inr (string_of_list_byte raw);
  Response_from_json_string := response_of_string;
  Failure_from_json_string := failure_of_string;
  RunResponse_from_json := run_response_of_json;
  GoalsResponse_from_json := fun j => inr j;
  PremisesResponse_from_json := fun j => inr j;
  path_as_uri := fun p => ("file://" ++ p)%string
|}.

(** A reply that arrives in one chunk. *)
Definition reply (s : string) : recv_event := Chunk (list_byte_of_string s).

End Compact.

(** ** Properties stated about sessions *)

(** What a call leaves alone: everything but the request counter and the
    socket. *)
Definition same_session (self self' : t) : Prop :=
  queue self' = queue self /\ env self' = env self /\ file self' = file self /\
  thm self' = thm self /\ host self' = host self /\ port self' = port self.

(** [keeps I m]: started in a state where [I] holds, [m] ends (returning,
    raising or blocked) in a state where [I] holds. *)
Definition keeps {A : Type} (I : t -> Prop) (m : M A) : Prop :=
  forall self, I self -> I (final (m self)).

(** A chunk shorter than the requested size. *)
Definition short (size : Z) (chunk : bytes) : Prop :=
  Z.of_nat (List.length chunk) < size.

(** The requests handed to the socket so far are numbered 1, 2, 3, ... in
    the order they were made, and the counter is the number of the last
    one. *)
Definition numbered `{Protocol} (self : t) : Prop :=
  exists requests : list Request.t,
    Socket.sent (socket self) = map payload requests /\
    (forall n request,
        nth_error requests n = Some request ->
        Request.id request = Z.of_nat n + 1) /\
    id self = Z.of_nat (List.length requests).

Definition known (params : Params) : bool :=
  match params with
  | UnknownParams => false
  | _ => true
  end.

(** ** What a call sends, what it records *)

(** The kinds of parameters [mk_request] tells apart. *)
Inductive kind : Type :=
| KInit
| KStart
| KRun
| KGoals
| KPremises
| KUnknown.

Definition kind_of (params : Params) : kind :=
  match params with
  | InitParams _ => KInit
  | StartParams _ _ _ => KStart
  | RunParams _ _ => KRun
  | GoalsParams _ => KGoals
  | PremisesParams _ => KPremises
  | UnknownParams => KUnknown
  end.

(** The parameters a method builds for [query], read off its body; [None]
    when the method ends before it reaches [query] ([current_state] on an
    empty stack) or never calls it ([backtrack]). *)
Definition params_of `{Protocol} (c : call) (self : t) : option Params :=
  match c with
  | Init root => Some (InitParams (path_as_uri root))
  | Start file thm => Some (StartParams (env self) (path_as_uri file) thm)
  | RunTac tac =>
      option_map (fun top => RunParams (State.id top) tac) (deque_top (queue self))
  | Goals =>
      option_map (fun top => GoalsParams (State.id top)) (deque_top (queue self))
  | Premises =>
      option_map (fun top => PremisesParams (State.id top)) (deque_top (queue self))
  | Backtrack => None
  | Reset => Some (StartParams (env self) (path_as_uri (file self)) (thm self))
  end.

(** The tactic a call runs, if it is a [run_tac]. *)
Definition tactic_of (c : call) : list string :=
  match c with
  | RunTac tac => [tac]
  | _ => []
  end.

Definition is_Start (c : call) : bool :=
  match c with
  | Start _ _ => true
  | _ => false
  end.

Definition is_Init (c : call) : bool :=
  match c with
  | Init _ => true
  | _ => false
  end.

(** [n] calls of [backtrack] in a row, stopping at the first that raises:
    the pairs returned, in the order of the calls, and the session
    left. *)
Fixpoint undo (n : nat) (self : t) : list (json * string) * t :=
  match n with
  | O => ([], self)
  | S n' =>
      match backtrack self with
      | Return r self' => let (rs, self'') := undo n' self' in (r :: rs, self'')
      | Raise _ self' => ([], self')
      | Block self' => ([], self')
      end
  end.

(** No chunk the socket will return is shorter than [size]. *)
Definition never_short (size : Z) (inc : list recv_event) : Prop :=
  forall chunk, In (Chunk chunk) inc -> size <= Z.of_nat (List.length chunk).

(** No comma among the characters of a text. *)
Fixpoint no_comma (s : string) : bool :=
  match s with
  | EmptyString => true
  | String c s' => negb (Ascii.eqb c ",") && no_comma s'
  end.

(** ** Example data *)

(** Four chunks as [recv(4)] may return them: two full ones, a short one,
    and one that arrives later. *)
Definition four_chunks : list bytes :=
  [[Byte.x61; Byte.x62; Byte.x63; Byte.x64]; [Byte.x65; Byte.x66; Byte.x67; Byte.x68];
   [Byte.x69; Byte.x0a]; [Byte.x6a]].

(** A session just after [init] and [start]: two requests made and
    answered, one entry on the stack, the initial state of the proof.
    [faults] and [inc] are what its socket will do next. *)
Definition awaiting (faults : list (option exn)) (inc : list recv_event) : t :=
  mk "localhost" 8765 2
    (Socket.mk
       (map (payload (H:=Compact.protocol))
          [Request.mk 1 "petanque/init"
             (Compact.params_to_json (InitParams "file:///proj"));
           Request.mk 2 "petanque/start"
             (Compact.params_to_json (StartParams (JInt 7) "file:///proj/a.v" "foo"))])
       faults inc)
    [State.mk (JInt 42) "Start"] (JInt 7) "/proj/a.v" "foo".

Definition started_session : t := awaiting [] [].

(** * Facts about the embedding *)

Ltac break_match :=
  match goal with
  | |- context [match ?x with _ => _ end] => destruct x eqn:?
  end.

Ltac unfold_monad :=
  unfold lift, try_except, bind, gets, update, raise, ret in *.

Section Deque.
Context {A : Type}.

Lemma deque_pop_app (q : list A) (x : A) : deque_pop (q ++ [x]) = Some (q, x).
Proof.
  induction q as [|y q IH]; simpl; [reflexivity|].
  rewrite IH. reflexivity.
Qed.

Lemma deque_pop_Some (q r : list A) (x : A) :
  deque_pop q = Some (r, x) -> q = r ++ [x].
Proof.
  revert r x. induction q as [|y q IH]; simpl; intros r x Hq; [discriminate|].
  destruct (deque_pop q) as [[r' x']|] eqn:E.
  - inversion Hq; subst. rewrite (IH r' x eq_refl). reflexivity.
  - inversion Hq; subst. destruct q as [|z q]; [reflexivity|].
    simpl in E. destruct (deque_pop q) as [[? ?]|]; discriminate.
Qed.

Lemma deque_pop_None (q : list A) : deque_pop q = None -> q = [].
Proof.
  destruct q as [|y q]; [reflexivity|]. simpl.
  destruct (deque_pop q) as [[? ?]|]; discriminate.
Qed.

Lemma deque_top_app (q : list A) (x : A) : deque_top (q ++ [x]) = Some x.
Proof. unfold deque_top. rewrite deque_pop_app. reflexivity. Qed.
End Deque.

Section Query.
Context `{Protocol}.

Lemma query_transmit (params : Params) (size : Z) (self : t) :
  query params size self = (raw <- transmit params size ;; parse_reply raw) self.
Proof.
  unfold query, transmit, parse_reply, payload, bind; simpl.
  destruct (lift (mk_request (id self + 1) params) _); try reflexivity.
  destruct (sendall _ _); try reflexivity.
Qed.

(** The [try] block, case by case. *)
Lemma parse_reply_cases (raw : bytes) (self : t) :
  parse_reply raw self =
  match Response_of_bytes raw with
  | inr resp =>
      if Response.id resp =? id self
      then Return resp self
      else Raise (PetanqueError (mismatch_message (id self) (Response.id resp))) self
  | inl e =>
      if is_ValueError e
      then match Failure_of_bytes raw with
           | inr failure => Raise (PetanqueError (Failure.error failure)) self
           | inl e' => Raise e' self
           end
      else Raise e self
  end.
Proof.
  unfold parse_reply, Response_of_bytes, Failure_of_bytes, mismatch_message.
  unfold_monad.
  destruct (bytes_decode raw) as [e|text]; simpl.
  - destruct (is_ValueError e); reflexivity.
  - destruct (Response_from_json_string text) as [e|resp]; simpl.
    + destruct (is_ValueError e); [|reflexivity].
      destruct (Failure_from_json_string text); reflexivity.
    + destruct (Response.id resp =? id self); reflexivity.
Qed.

(** Reading the reply touches nothing and always comes back. *)
Lemma parse_reply_final (raw : bytes) (self : t) :
  final (parse_reply raw self) = self /\
  forall self', parse_reply raw self <> Block self'.
Proof.
  rewrite parse_reply_cases.
  repeat break_match; simpl; split; try reflexivity; discriminate.
Qed.

(** Numbering, sending and receiving leave the session alone and count
    one request. *)
Lemma transmit_final (params : Params) (size : Z) (self : t) :
  same_session self (final (transmit params size self)) /\
  id (final (transmit params size self)) = id self + 1.
Proof.
  unfold transmit, same_session, sendall, receive; unfold_monad; simpl.
  destruct (mk_request (id self + 1) params); simpl; [tauto|].
  destruct (Socket.sendall _ _) as [sock [e|]]; simpl; [tauto|].
  destruct (recv_loop _ _ _); simpl; tauto.
Qed.

(** Every request that [mk_request] accepts reaches [sendall], whatever
    happens next. *)
Lemma transmit_sent (params : Params) (size : Z) (self : t) :
  match mk_request (id self + 1) params with
  | inr request =>
      Socket.sent (socket (final (transmit params size self))) =
      Socket.sent (socket self) ++ [payload request]
  | inl e => transmit params size self = Raise e (set_id (id self + 1) self)
  end.
Proof.
  unfold transmit, sendall, receive; unfold_monad; simpl.
  destruct (mk_request (id self + 1) params) as [e|request]; simpl; [reflexivity|].
  unfold Socket.sendall.
  destruct (Socket.send_faults (socket self)) as [|[e|] rest]; simpl;
    try reflexivity;
    destruct (recv_loop _ _ _); reflexivity.
Qed.

Lemma query_final (params : Params) (size : Z) (self : t) :
  same_session self (final (query params size self)) /\
  id (final (query params size self)) = id self + 1.
Proof.
  rewrite query_transmit. unfold bind.
  pose proof (transmit_final params size self) as Ht.
  destruct (transmit params size self) as [raw s1|e s1|s1]; simpl in *; try exact Ht.
  destruct (parse_reply_final raw s1) as [-> _]. exact Ht.
Qed.

Lemma query_queue (params : Params) (size : Z) (self : t) :
  queue (final (query params size self)) = queue self.
Proof. apply query_final. Qed.

Lemma query_Return_id (params : Params) (size : Z) (self self' : t) (resp : Response.t) :
  query params size self = Return resp self' ->
  Response.id resp = id self + 1.
Proof.
  rewrite query_transmit. unfold bind.
  pose proof (transmit_final params size self) as [_ Hid].
  destruct (transmit params size self) as [raw s1|e s1|s1]; try discriminate.
  simpl in Hid. rewrite parse_reply_cases.
  destruct (Response_of_bytes raw) as [e|r].
  - destruct (is_ValueError e); [destruct (Failure_of_bytes raw)|]; discriminate.
  - destruct (Z.eqb_spec (Response.id r) (id s1)); [|discriminate].
    intros E; inversion E; subst. congruence.
Qed.
End Query.

(** ** Properties of the session that calls keep *)

Section Keeps.
Variable I : t -> Prop.

Lemma keeps_ret {A : Type} (a : A) : keeps I (ret a).
Proof. intros self HI. exact HI. Qed.

Lemma keeps_raise {A : Type} (e : exn) : keeps I (raise (A:=A) e).
Proof. intros self HI. exact HI. Qed.

Lemma keeps_gets {A : Type} (f : t -> A) : keeps I (gets f).
Proof. intros self HI. exact HI. Qed.

Lemma keeps_lift {A : Type} (r : exn + A) : keeps I (lift r).
Proof. destruct r; intros self HI; exact HI. Qed.

Lemma keeps_update (f : t -> t) :
  (forall self, I self -> I (f self)) -> keeps I (update f).
Proof. intros Hf self HI. apply Hf, HI. Qed.

Lemma keeps_bind {A B : Type} (m : M A) (k : A -> M B) :
  keeps I m -> (forall a, keeps I (k a)) -> keeps I (bind m k).
Proof.
  intros Hm Hk self HI. unfold bind.
  specialize (Hm self HI).
  destruct (m self) as [a s1|e s1|s1]; simpl in *; auto.
  apply Hk, Hm.
Qed.

Lemma keeps_current_state : keeps I current_state.
Proof.
  intros self HI. unfold current_state.
  destruct (deque_top (queue self)); exact HI.
Qed.
End Keeps.

Create HintDb keeps.
#[local] Hint Resolve keeps_ret keeps_raise keeps_gets keeps_lift keeps_bind
  keeps_current_state : keeps.

(** [awaiting] is where a new client stands after [init] and [start]. *)
Example awaiting_reached (faults : list (option exn)) (inc : list recv_event) :
  run (H:=Compact.protocol) [Init "/proj"; Start "/proj/a.v" "foo"]
    (__init__ "localhost" 8765 (None :: None :: faults)
       (Compact.reply "1 int 7" :: Compact.reply "2 int 42" :: inc)) =
  awaiting faults inc.
Proof. vm_compute. reflexivity. Qed.

(** * The receive loop *)

Lemma recv_loop_chunks (size : Z) (later : list recv_event) :
  forall (chunks : list bytes) (fragments : list bytes),
    Exists (short size) chunks ->
    exists full last after,
      chunks = full ++ last :: after /\
      Forall (fun c => ~ short size c) full /\
      short size last /\
      recv_loop size (map Chunk chunks ++ later) fragments =
      Received (fragments ++ full ++ [last]) (map Chunk after ++ later).
Proof.
  unfold short.
  induction chunks as [|c chunks IH]; intros fragments Hex.
  - inversion Hex.
  - simpl. destruct (Z.ltb_spec (Z.of_nat (List.length c)) size) as [Hlt|Hge].
    + exists [], c, chunks. repeat split; auto.
    + assert (Hex' : Exists (fun c => Z.of_nat (List.length c) < size) chunks).
      { inversion Hex; subst; [lia | assumption]. }
      destruct (IH (fragments ++ [c]) Hex')
        as (full & last & after & -> & Hfull & Hlast & Hloop).
      exists (c :: full), last, after. repeat split; auto.
      * constructor; [lia | assumption].
      * rewrite Hloop, <- app_assoc. reflexivity.
Qed.

(** C9.  When some chunk of the incoming sequence is shorter than the
    requested size, the receive loop stops at the first such chunk: the
    chunks before it are not short (and are exactly [size] long when [recv]
    keeps its contract of returning at most [size] bytes), the loop
    returns the chunks up to and including the short one, whose
    concatenation is what [query] goes on with, and the chunks after it
    stay unread. *)
Theorem receive_stops_at_first_short_chunk
  (size : Z) (chunks : list bytes) (later : list recv_event) (self : t) :
  Exists (short size) chunks ->
  Socket.incoming (socket self) = map Chunk chunks ++ later ->
  exists full last after,
    chunks = full ++ last :: after /\
    Forall (fun c => ~ short size c) full /\
    (Forall (fun c => Z.of_nat (List.length c) <= size) chunks ->
     Forall (fun c => Z.of_nat (List.length c) = size) full) /\
    short size last /\
    recv_loop size (map Chunk chunks ++ later) [] =
      Received (full ++ [last]) (map Chunk after ++ later) /\
    receive size self =
      Return (List.concat full ++ last)
        (set_socket (Socket.mk (Socket.sent (socket self))
                       (Socket.send_faults (socket self))
                       (map Chunk after ++ later)) self).
Proof.
  intros Hex Hinc.
  destruct (recv_loop_chunks size later chunks [] Hex)
    as (full & last & after & Hchunks & Hfull & Hlast & Hloop).
  exists full, last, after. simpl in Hloop.
  repeat split; auto.
  - intros Hmax. subst chunks.
    apply Forall_app in Hmax as [Hmax _].
    rewrite Forall_forall in *. intros c Hc.
    specialize (Hfull c Hc). specialize (Hmax c Hc). unfold short in Hfull. lia.
  - unfold receive. rewrite Hinc, Hloop. unfold join.
    rewrite concat_app. simpl. rewrite app_nil_r. reflexivity.
Qed.

(** Read four bytes at a time, [four_chunks] ends the loop at its third
    chunk. *)
Lemma receive_stops_at_first_short_chunk_witness :
  Exists (short 4) four_chunks /\
  exists full last after,
    four_chunks = full ++ last :: after /\
    Forall (fun c => ~ short 4 c) full /\
    (Forall (fun c => Z.of_nat (List.length c) <= 4) four_chunks ->
     Forall (fun c => Z.of_nat (List.length c) = 4) full) /\
    short 4 last /\
    recv_loop 4 (map Chunk four_chunks ++ []) [] =
      Received (full ++ [last]) (map Chunk after ++ []) /\
    receive 4 (__init__ "localhost" 8765 [] (map Chunk four_chunks ++ [])) =
      Return (List.concat full ++ last)
        (set_socket (Socket.mk [] [] (map Chunk after ++ []))
           (__init__ "localhost" 8765 [] (map Chunk four_chunks ++ []))).
Proof.
  assert (Hshort : Exists (short 4) four_chunks).
  { apply Exists_cons_tl, Exists_cons_tl, Exists_cons_hd. unfold short. simpl. lia. }
  split; [exact Hshort|].
  exact (receive_stops_at_first_short_chunk 4 four_chunks []
           (__init__ "localhost" 8765 [] (map Chunk four_chunks ++ []))
           Hshort eq_refl).
Defined.

Example receive_four_chunks :
  receive 4 (__init__ "localhost" 8765 [] (map Chunk four_chunks)) =
  Return [Byte.x61; Byte.x62; Byte.x63; Byte.x64; Byte.x65; Byte.x66; Byte.x67;
          Byte.x68; Byte.x69; Byte.x0a]
    (__init__ "localhost" 8765 [] [Chunk [Byte.x6a]]).
Proof. reflexivity. Qed.

(** * backtrack *)

Lemma backtrack_cases (self : t) :
  backtrack self =
  match deque_pop (queue self) with
  | Some (rest, st) => Return (State.id st, State.action st) (set_queue rest self)
  | None => Raise (IndexError "pop from an empty deque") self
  end.
Proof. reflexivity. Qed.

Lemma backtrack_top (self : t) (rest : list State.t) (st : State.t) :
  queue self = rest ++ [st] ->
  backtrack self = Return (State.id st, State.action st) (set_queue rest self).
Proof.
  intros Hq. rewrite backtrack_cases, Hq, deque_pop_app. reflexivity.
Qed.

Lemma backtrack_final (self : t) :
  final (backtrack self) = set_queue (queue (final (backtrack self))) self /\
  forall blocked, backtrack self <> Block blocked.
Proof.
  rewrite backtrack_cases.
  destruct (deque_pop (queue self)) as [[rest st]|]; simpl;
    split; try discriminate; destruct self; reflexivity.
Qed.

(** C1, as the code has it.  On a stack of exactly one entry [backtrack]
    does not fail: it pops that entry, returns its id and action and
    leaves the stack empty, the rest of the session untouched.  The only
    failure of [backtrack] is the IndexError of [deque.pop] on an empty
    stack, and it leaves the session as it was. *)
Theorem backtrack_pops_single_entry (self : t) (entry : State.t) :
  queue self = [entry] ->
  backtrack self = Return (State.id entry, State.action entry) (set_queue [] self) /\
  (forall (other : t) (e : exn) (other' : t),
      backtrack other = Raise e other' ->
      queue other = [] /\ other' = other /\ e = IndexError "pop from an empty deque").
Proof.
  intros Hq. split.
  - apply (backtrack_top self [] entry). exact Hq.
  - intros other e other'. rewrite backtrack_cases.
    destruct (deque_pop (queue other)) as [[rest st]|] eqn:E; [discriminate|].
    intros Hr. inversion Hr; subst.
    auto using deque_pop_None.
Qed.

Lemma backtrack_pops_single_entry_witness :
  queue started_session = [State.mk (JInt 42) "Start"] /\
  backtrack started_session = Return (JInt 42, "Start") (set_queue [] started_session).
Proof.
  split; [reflexivity|].
  exact (proj1 (backtrack_pops_single_entry started_session
                  (State.mk (JInt 42) "Start") eq_refl)).
Defined.

(** C1 fails on the code: with one entry on the stack [backtrack] returns
    instead of raising, and the stack has changed. *)
Lemma backtrack_single_entry_counterexample :
  List.length (queue started_session) = 1%nat /\
  backtrack started_session = Return (JInt 42, "Start") (set_queue [] started_session) /\
  (forall e self', backtrack started_session <> Raise e self') /\
  queue (final (backtrack started_session)) <> queue started_session.
Proof.
  repeat split; try discriminate.
Qed.

(** C10.  [backtrack] is local: it never touches the socket (nothing is
    sent, nothing read), the request counter, the environment handle, the
    stored file and theorem, the host or the port; it always comes back;
    the session it leaves is the one it found with another stack. *)
Theorem backtrack_is_local (self : t) :
  let self' := final (backtrack self) in
  socket self' = socket self /\
  id self' = id self /\
  env self' = env self /\
  file self' = file self /\
  thm self' = thm self /\
  host self' = host self /\
  port self' = port self /\
  self' = set_queue (queue self') self /\
  (forall blocked, backtrack self <> Block blocked).
Proof.
  intros self'. destruct (backtrack_final self) as [Hfinal Hback].
  fold self' in Hfinal. rewrite Hfinal.
  repeat split; exact Hback.
Qed.

(** * run_tac *)

Section RunTac.
Context `{Protocol}.

Lemma current_state_cases (self : t) :
  current_state self =
  match deque_top (queue self) with
  | Some st => Return (State.id st) self
  | None => Raise (IndexError "deque index out of range") self
  end.
Proof. reflexivity. Qed.

Lemma run_tac_cases (tac : string) (self : t) :
  run_tac tac self =
  match deque_top (queue self) with
  | None => Raise (IndexError "deque index out of range") self
  | Some top =>
      match query (RunParams (State.id top) tac) 1024 self with
      | Return resp self1 =>
          match RunResponse_from_json (Response.result resp) with
          | inl e => Raise e self1
          | inr res =>
              match RunResponse.value res with
              | CurrentState st =>
                  Return (CurrentState st)
                    (set_queue (queue self1 ++ [State.mk st tac]) self1)
              | ProofFinished st =>
                  Return (ProofFinished st)
                    (set_queue (queue self1 ++ [State.mk st tac]) self1)
              | OtherValue _ => Raise (PetanqueError "Invalid proof state") self1
              end
          end
      | Raise e self1 => Raise e self1
      | Block self1 => Block self1
      end
  end.
Proof.
  unfold run_tac, bind. rewrite current_state_cases.
  destruct (deque_top (queue self)) as [top|]; [|reflexivity].
  destruct (query _ _ self) as [resp self1|e self1|self1]; try reflexivity.
  unfold_monad.
  destruct (RunResponse_from_json (Response.result resp)) as [e|res]; [reflexivity|].
  simpl. destruct (RunResponse.value res) eqn:Ev; reflexivity.
Qed.

(** A call that returned pushed one entry on the stack it found. *)
Lemma run_tac_Return (tac : string) (self self1 : t) (v : RunValue) :
  run_tac tac self = Return v self1 ->
  exists new_id,
    (v = CurrentState new_id \/ v = ProofFinished new_id) /\
    queue self1 = queue self ++ [State.mk new_id tac] /\
    queue self <> [].
Proof.
  rewrite run_tac_cases.
  destruct (deque_top (queue self)) as [top|] eqn:Etop; [|discriminate].
  assert (Hne : queue self <> []).
  { intros Hq. rewrite Hq in Etop. discriminate. }
  pose proof (query_queue (RunParams (State.id top) tac) 1024 self) as Hq.
  destruct (query _ _ self) as [resp s1|e s1|s1]; try discriminate.
  simpl in Hq.
  destruct (RunResponse_from_json (Response.result resp)) as [e|res]; [discriminate|].
  destruct (RunResponse.value res) as [st|st|other]; try discriminate;
    intros Hr; inversion Hr; subst; exists st; simpl; rewrite Hq; auto.
Qed.

(** A call that raised left the stack alone. *)
Lemma run_tac_Raise (tac : string) (self self1 : t) (e : exn) :
  run_tac tac self = Raise e self1 -> queue self1 = queue self.
Proof.
  rewrite run_tac_cases.
  destruct (deque_top (queue self)) as [top|].
  - pose proof (query_queue (RunParams (State.id top) tac) 1024 self) as Hq.
    destruct (query _ _ self) as [resp s1|e1 s1|s1]; try discriminate; simpl in Hq.
    + destruct (RunResponse_from_json (Response.result resp)) as [e2|res].
      * intros Hr; inversion Hr; subst; exact Hq.
      * destruct (RunResponse.value res); try discriminate.
        intros Hr; inversion Hr; subst; exact Hq.
    + intros Hr; inversion Hr; subst; exact Hq.
  - intros Hr; inversion Hr; reflexivity.
Qed.
End RunTac.

(** C5.  On a non-empty stack, once the reply to the run request is
    decoded: for [CurrentState new_id] and for [ProofFinished new_id] the
    call pushes the one entry [{id: new_id, action: tac}] on the stack as
    it was and returns the variant; for any other value it raises
    PetanqueError("Invalid proof state") and the stack is as it was. *)
Theorem run_tac_pushes_decoded_state `{Protocol}
  (tac : string) (self self1 : t) (top : State.t)
  (resp : Response.t) (res : RunResponse.t) :
  deque_top (queue self) = Some top ->
  query (RunParams (State.id top) tac) 1024 self = Return resp self1 ->
  RunResponse_from_json (Response.result resp) = inr res ->
  match RunResponse.value res with
  | CurrentState new_id | ProofFinished new_id =>
      run_tac tac self =
      Return (RunResponse.value res)
        (set_queue (queue self ++ [State.mk new_id tac]) self1)
  | OtherValue _ =>
      run_tac tac self = Raise (PetanqueError "Invalid proof state") self1 /\
      queue self1 = queue self
  end.
Proof.
  intros Htop Hquery Hres.
  pose proof (query_queue (RunParams (State.id top) tac) 1024 self) as Hq.
  rewrite Hquery in Hq; simpl in Hq.
  rewrite run_tac_cases, Htop, Hquery, Hres.
  destruct (RunResponse.value res); rewrite ?Hq; auto.
Qed.

(** The server answers the third request with a new current state. *)
Lemma run_tac_pushes_decoded_state_witness :
  deque_top (queue (awaiting [] [Compact.reply "3 CurrentState 43"])) =
    Some (State.mk (JInt 42) "Start") /\
  run_tac (H:=Compact.protocol) "intro x." (awaiting [] [Compact.reply "3 CurrentState 43"]) =
  Return (CurrentState (JInt 43))
    (set_queue
       (queue (awaiting [] [Compact.reply "3 CurrentState 43"]) ++
        [State.mk (JInt 43) "intro x."])
       (final (query (H:=Compact.protocol) (RunParams (JInt 42) "intro x.") 1024
                 (awaiting [] [Compact.reply "3 CurrentState 43"])))).
Proof.
  assert (Htop : deque_top (queue (awaiting [] [Compact.reply "3 CurrentState 43"])) =
                 Some (State.mk (JInt 42) "Start")) by (vm_compute; reflexivity).
  assert (Hquery :
            query (H:=Compact.protocol)
              (RunParams (State.id (State.mk (JInt 42) "Start")) "intro x.") 1024
              (awaiting [] [Compact.reply "3 CurrentState 43"]) =
            Return (Response.mk 3 (JObject [("CurrentState", JInt 43)]))
              (final (query (H:=Compact.protocol) (RunParams (JInt 42) "intro x.") 1024
                        (awaiting [] [Compact.reply "3 CurrentState 43"]))))
    by (vm_compute; reflexivity).
  assert (Hres :
            RunResponse_from_json (Protocol:=Compact.protocol)
              (Response.result (Response.mk 3 (JObject [("CurrentState", JInt 43)]))) =
            inr (RunResponse.mk (CurrentState (JInt 43))))
    by (vm_compute; reflexivity).
  split; [exact Htop|].
  exact (run_tac_pushes_decoded_state (H:=Compact.protocol) "intro x." _ _ _ _ _
           Htop Hquery Hres).
Defined.

Example run_tac_proof_finished :
  queue (final (run_tac (H:=Compact.protocol) "reflexivity."
                  (awaiting [] [Compact.reply "3 ProofFinished 44"]))) =
  [State.mk (JInt 42) "Start"; State.mk (JInt 44) "reflexivity."].
Proof. reflexivity. Qed.

Example run_tac_other_value :
  exists self1,
    run_tac (H:=Compact.protocol) "auto."
      (awaiting [] [Compact.reply "3 Interrupted 0"]) =
    Raise (PetanqueError "Invalid proof state") self1 /\
    queue self1 = [State.mk (JInt 42) "Start"].
Proof. eexists. split; vm_compute; reflexivity. Qed.

(** C7.  When [run_tac tac] has returned, producing state [new_id], the
    stack has at least two entries and its top is the entry that call
    pushed; from then on, as long as the stack is that one, [backtrack]
    returns [(new_id, tac)] and leaves the stack the tactic found: one
    entry shorter, only the top removed. *)
Theorem backtrack_undoes_run_tac `{Protocol}
  (tac : string) (self self1 : t) (v : RunValue) :
  run_tac tac self = Return v self1 ->
  exists new_id,
    (v = CurrentState new_id \/ v = ProofFinished new_id) /\
    queue self1 = queue self ++ [State.mk new_id tac] /\
    (2 <= List.length (queue self1))%nat /\
    forall self2,
      queue self2 = queue self1 ->
      backtrack self2 = Return (new_id, tac) (set_queue (queue self) self2) /\
      S (List.length (queue (final (backtrack self2)))) = List.length (queue self2).
Proof.
  intros Hrun.
  destruct (run_tac_Return tac self self1 v Hrun) as (new_id & Hv & Hq & Hne).
  exists new_id. split; [exact Hv|]. split; [exact Hq|]. split.
  - rewrite Hq, length_app. simpl.
    destruct (queue self); [congruence | simpl; lia].
  - intros self2 Hsame.
    rewrite (backtrack_top self2 (queue self) (State.mk new_id tac)) by congruence.
    split; [reflexivity|].
    simpl. rewrite Hsame, Hq, length_app. simpl. lia.
Qed.

(** The tactic that finishes the proof, undone. *)
Lemma backtrack_undoes_run_tac_witness :
  run_tac (H:=Compact.protocol) "reflexivity."
    (awaiting [] [Compact.reply "3 ProofFinished 44"]) =
  Return (ProofFinished (JInt 44))
    (final (run_tac (H:=Compact.protocol) "reflexivity."
              (awaiting [] [Compact.reply "3 ProofFinished 44"]))) /\
  backtrack (final (run_tac (H:=Compact.protocol) "reflexivity."
                      (awaiting [] [Compact.reply "3 ProofFinished 44"]))) =
  Return (JInt 44, "reflexivity.")
    (set_queue (queue (awaiting [] [Compact.reply "3 ProofFinished 44"]))
       (final (run_tac (H:=Compact.protocol) "reflexivity."
                 (awaiting [] [Compact.reply "3 ProofFinished 44"])))).
Proof.
  assert (Hrun :
            run_tac (H:=Compact.protocol) "reflexivity."
              (awaiting [] [Compact.reply "3 ProofFinished 44"]) =
            Return (ProofFinished (JInt 44))
              (final (run_tac (H:=Compact.protocol) "reflexivity."
                        (awaiting [] [Compact.reply "3 ProofFinished 44"]))))
    by (vm_compute; reflexivity).
  split; [exact Hrun|].
  destruct (backtrack_undoes_run_tac (H:=Compact.protocol) _ _ _ _ Hrun)
    as (new_id & [Hv|Hv] & _ & _ & Hback).
  - discriminate Hv.
  - injection Hv as <-. exact (proj1 (Hback _ eq_refl)).
Defined.

(** * The methods that make requests *)

Section Session.
Context `{Protocol}.

Lemma query_final_transmit (params : Params) (size : Z) (self : t) :
  final (query params size self) = final (transmit params size self).
Proof.
  rewrite query_transmit. unfold bind.
  destruct (transmit params size self) as [raw s1|e s1|s1]; try reflexivity.
  apply parse_reply_final.
Qed.

Lemma query_keeps_queue (q : list State.t) (params : Params) (size : Z) :
  keeps (fun self => queue self = q) (query params size).
Proof. intros self Hq. rewrite query_queue. exact Hq. Qed.

Lemma init_queue (root : string) (self : t) :
  queue (final (init root self)) = queue self.
Proof.
  apply (keeps_bind (fun s => queue s = queue self)); [| |reflexivity].
  - apply query_keeps_queue.
  - intros resp. apply keeps_update. auto.
Qed.

Lemma goals_queue (self : t) : queue (final (goals self)) = queue self.
Proof.
  assert (Hk : keeps (fun s => queue s = queue self) goals).
  { unfold goals. auto 10 using query_keeps_queue with keeps. }
  apply Hk. reflexivity.
Qed.

Lemma premises_queue (self : t) : queue (final (premises self)) = queue self.
Proof.
  assert (Hk : keeps (fun s => queue s = queue self) premises).
  { unfold premises. auto 10 using query_keeps_queue with keeps. }
  apply Hk. reflexivity.
Qed.

Lemma start_cases (file thm : string) (self : t) :
  start file thm self =
  match query (StartParams (env self) (path_as_uri file) thm) 1024
          (set_queue [] (set_thm thm (set_file file self))) with
  | Return resp self1 =>
      Return tt (set_queue (queue self1 ++ [State.mk (Response.result resp) "Start"]) self1)
  | Raise e self1 => Raise e self1
  | Block self1 => Block self1
  end.
Proof.
  unfold start. unfold_monad. simpl.
  destruct (query _ _ _); reflexivity.
Qed.

(** [start], outcome by outcome: one entry when it returns, none when it
    does not. *)
Lemma start_queue (file thm : string) (self : t) :
  match start file thm self with
  | Return _ self' => exists first, queue self' = [State.mk first "Start"]
  | Raise _ self' => queue self' = []
  | Block self' => queue self' = []
  end.
Proof.
  rewrite start_cases.
  pose proof (query_queue (StartParams (env self) (path_as_uri file) thm) 1024
                (set_queue [] (set_thm thm (set_file file self)))) as Hq.
  destruct (query _ _ _) as [resp s1|e s1|s1]; simpl in *; auto.
  exists (Response.result resp). rewrite Hq. reflexivity.
Qed.

Lemma reset_start (self : t) : reset self = start (file self) (thm self) self.
Proof. reflexivity. Qed.

(** What a call that keeps the history does to the stack. *)
Lemma exec_keeps_history (c : call) (self : t) :
  keeps_history c = true ->
  match exec c self with
  | Return _ self' =>
      List.length (queue self') =
      (List.length (queue self) + (if is_RunTac c then 1 else 0))%nat
  | Raise _ self' => queue self' = queue self
  | Block self' => queue self' = queue self
  end.
Proof.
  destruct c; try discriminate; intros _; simpl.
  - pose proof (init_queue root self) as Hq.
    destruct (init root self); simpl in Hq; rewrite Hq; auto.
  - unfold bind, ret.
    pose proof (run_tac_Return tac self) as Hret.
    pose proof (run_tac_Raise tac self) as Hraise.
    pose proof (run_tac_cases tac self) as Hcases.
    destruct (run_tac tac self) as [v s1|e s1|s1].
    + destruct (Hret s1 v eq_refl) as (new_id & _ & Hq & _).
      rewrite Hq, length_app. reflexivity.
    + exact (Hraise s1 e eq_refl).
    + destruct (deque_top (queue self)) as [top|]; [|discriminate].
      pose proof (query_queue (RunParams (State.id top) tac) 1024 self) as Hq.
      destruct (query _ _ self) as [resp s2|e s2|s2]; simpl in Hq.
      * destruct (RunResponse_from_json _); [discriminate|].
        destruct (RunResponse.value _); discriminate.
      * discriminate.
      * inversion Hcases; subst. exact Hq.
  - unfold bind, ret. pose proof (goals_queue self) as Hq.
    destruct (goals self); simpl in Hq; rewrite Hq; auto.
  - unfold bind, ret. pose proof (premises_queue self) as Hq.
    destruct (premises self); simpl in Hq; rewrite Hq; auto.
Qed.
End Session.

(** C2, as the code has it.  A call that raises leaves the stack as it was
    when the call is [init], [run_tac], [goals] or [premises] (and
    [backtrack]); a [start] that raises (and so a [reset]) leaves the
    stack empty, whatever it held: [start] clears the stack before it
    makes its request. *)
Theorem failed_call_stack `{Protocol} (c : call) (self self' : t) (e : exn) :
  exec c self = Raise e self' ->
  match c with
  | Start _ _ | Reset => queue self' = []
  | Init _ | RunTac _ | Goals | Premises | Backtrack => queue self' = queue self
  end.
Proof.
  intros Hexec.
  destruct c as [root|f th|tac| | | |];
    try (match type of Hexec with
         | exec ?c _ = _ => pose proof (exec_keeps_history c self eq_refl) as Hk
         end;
         rewrite Hexec in Hk; exact Hk).
  - simpl in Hexec. pose proof (start_queue f th self) as Hq.
    rewrite Hexec in Hq. exact Hq.
  - simpl in Hexec. unfold bind in Hexec. rewrite backtrack_cases in Hexec.
    destruct (deque_pop (queue self)) as [[rest st]|]; [discriminate|].
    inversion Hexec; reflexivity.
  - simpl in Hexec. rewrite reset_start in Hexec.
    pose proof (start_queue (file self) (thm self) self) as Hq.
    rewrite Hexec in Hq. exact Hq.
Qed.

(** The server answers a goals request with a failure. *)
Lemma failed_call_stack_witness :
  exec (H:=Compact.protocol) Goals (awaiting [] [Compact.reply "error oops"]) =
    Raise (PetanqueError "oops")
      (final (exec (H:=Compact.protocol) Goals (awaiting [] [Compact.reply "error oops"]))) /\
  queue (final (exec (H:=Compact.protocol) Goals (awaiting [] [Compact.reply "error oops"]))) =
  queue (awaiting [] [Compact.reply "error oops"]).
Proof.
  assert (Hexec :
            exec (H:=Compact.protocol) Goals (awaiting [] [Compact.reply "error oops"]) =
            Raise (PetanqueError "oops")
              (final (exec (H:=Compact.protocol) Goals
                        (awaiting [] [Compact.reply "error oops"]))))
    by (vm_compute; reflexivity).
  split; [exact Hexec|].
  exact (failed_call_stack (H:=Compact.protocol) Goals _ _ _ Hexec).
Defined.

(** C2 fails on the code: a [start] whose request cannot be sent raises,
    and the entry the stack held is gone. *)
Lemma failed_start_counterexample :
  let self := awaiting [Some (OSError "Broken pipe")] [] in
  let after := final (start (H:=Compact.protocol) "/proj/a.v" "foo" self) in
  start (H:=Compact.protocol) "/proj/a.v" "foo" self = Raise (OSError "Broken pipe") after /\
  queue self = [State.mk (JInt 42) "Start"] /\
  queue after = [] /\
  queue after <> queue self.
Proof.
  repeat split; discriminate.
Qed.

Example failed_start_server_failure :
  let self := awaiting [] [Compact.reply "error oops"] in
  let after := final (start (H:=Compact.protocol) "/proj/a.v" "foo" self) in
  start (H:=Compact.protocol) "/proj/a.v" "foo" self = Raise (PetanqueError "oops") after /\
  queue after = [].
Proof. vm_compute. split; reflexivity. Qed.

(** C6.  When [start] has returned the stack is one entry with action
    "Start".  From there, whatever sequence of [run_tac], [goals],
    [premises] (and [init]) calls is made, failed ones included, the
    length of the stack is 1 plus the number of [run_tac] calls that
    returned.  [goals] and [premises] leave the stack as it is, however
    they end. *)
Theorem stack_length_counts_tactics `{Protocol}
  (file thm : string) (self self0 : t) :
  start file thm self = Return tt self0 ->
  (exists first, queue self0 = [State.mk first "Start"]) /\
  (forall calls,
      forallb keeps_history calls = true ->
      List.length (queue (run calls self0)) =
      (1 + List.length (filter is_RunTac (returned calls self0)))%nat) /\
  (forall other,
      queue (final (goals other)) = queue other /\
      queue (final (premises other)) = queue other).
Proof.
  intros Hstart.
  pose proof (start_queue file thm self) as Hq. rewrite Hstart in Hq.
  split; [exact Hq|]. split; [|auto using goals_queue, premises_queue].
  destruct Hq as [first Hq].
  assert (Hgen : forall calls s,
             forallb keeps_history calls = true ->
             List.length (queue (run calls s)) =
             (List.length (queue s) +
              List.length (filter is_RunTac (returned calls s)))%nat).
  { induction calls as [|c calls IH]; intros s Hall; simpl.
    - lia.
    - simpl in Hall. apply andb_true_iff in Hall as [Hc Hall].
      pose proof (exec_keeps_history c s Hc) as Hk.
      destruct (exec c s) as [[] s1|e s1|s1].
      + rewrite IH by exact Hall. rewrite Hk. simpl.
        destruct (is_RunTac c); simpl; lia.
      + rewrite IH by exact Hall. rewrite Hk. reflexivity.
      + rewrite Hk. simpl. lia. }
  intros calls Hall. rewrite Hgen by exact Hall. rewrite Hq. reflexivity.
Qed.

(** The proof is started again, on another theorem. *)
Lemma stack_length_counts_tactics_witness :
  start (H:=Compact.protocol) "/proj/b.v" "bar" (awaiting [] [Compact.reply "3 int 50"]) =
    Return tt
      (final (start (H:=Compact.protocol) "/proj/b.v" "bar"
                (awaiting [] [Compact.reply "3 int 50"]))) /\
  forall calls,
    forallb keeps_history calls = true ->
    List.length
      (queue (run (H:=Compact.protocol) calls
                (final (start (H:=Compact.protocol) "/proj/b.v" "bar"
                          (awaiting [] [Compact.reply "3 int 50"]))))) =
    (1 + List.length
           (filter is_RunTac
              (returned (H:=Compact.protocol) calls
                 (final (start (H:=Compact.protocol) "/proj/b.v" "bar"
                           (awaiting [] [Compact.reply "3 int 50"]))))))%nat.
Proof.
  assert (Hstart :
            start (H:=Compact.protocol) "/proj/b.v" "bar"
              (awaiting [] [Compact.reply "3 int 50"]) =
            Return tt
              (final (start (H:=Compact.protocol) "/proj/b.v" "bar"
                        (awaiting [] [Compact.reply "3 int 50"]))))
    by (vm_compute; reflexivity).
  split; [exact Hstart|].
  exact (proj1 (proj2 (stack_length_counts_tactics (H:=Compact.protocol) _ _ _ _ Hstart))).
Defined.

(** Two tactics that succeed around one the server refuses, with a goals
    request in between: three entries. *)
Example stack_after_mixed_calls :
  let self := awaiting [] [Compact.reply "3 int 50"; Compact.reply "4 CurrentState 51";
                           Compact.reply "error no"; Compact.reply "6 int 0";
                           Compact.reply "7 ProofFinished 52"] in
  let self0 := final (start (H:=Compact.protocol) "/proj/b.v" "bar" self) in
  let calls := [RunTac "intros."; RunTac "oops."; Goals; RunTac "auto."] in
  queue (run (H:=Compact.protocol) calls self0) =
    [State.mk (JInt 50) "Start"; State.mk (JInt 51) "intros."; State.mk (JInt 52) "auto."] /\
  returned (H:=Compact.protocol) calls self0 = [RunTac "intros."; Goals; RunTac "auto."].
Proof. vm_compute. split; reflexivity. Qed.

(** * Replies *)

Section Transmit.
Context `{Protocol}.

Lemma mk_request_id (i : Z) (params : Params) (request : Request.t) :
  mk_request i params = inr request -> Request.id request = i.
Proof.
  destruct params; simpl; intros Hr; inversion Hr; reflexivity.
Qed.

(** When the reply has come, the request went out under the new value of
    the counter. *)
Lemma transmit_Return (params : Params) (size : Z) (self self1 : t) (raw : bytes) :
  transmit params size self = Return raw self1 ->
  id self1 = id self + 1 /\
  queue self1 = queue self /\
  exists request,
    mk_request (id self1) params = inr request /\
    Request.id request = id self1 /\
    Socket.sent (socket self1) = Socket.sent (socket self) ++ [payload request].
Proof.
  intros Ht.
  pose proof (transmit_final params size self) as [Hsame Hid].
  pose proof (transmit_sent params size self) as Hsent.
  rewrite Ht in *; simpl in *.
  split; [exact Hid|]. split; [apply Hsame|].
  rewrite Hid.
  destruct (mk_request (id self + 1) params) as [e|request] eqn:Emk; [discriminate|].
  exists request. split; [reflexivity|].
  split; [exact (mk_request_id _ _ _ Emk) | exact Hsent].
Qed.
End Transmit.

(** C3.  When the reply to a request decodes as a Response whose id is not
    the id the request was sent with, [query] raises the PetanqueError
    "Sent request <sent id>, got response <received id>"; the stack is the
    one the request was made on; and whichever method made the request,
    the rest of it (the push of [start] and [run_tac] included) is
    skipped: the method ends with that same error in that same state. *)
Theorem id_mismatch_raises `{Protocol}
  (params : Params) (size : Z) (self self1 : t) (raw : bytes) (resp : Response.t) :
  transmit params size self = Return raw self1 ->
  Response_of_bytes raw = inr resp ->
  Response.id resp <> id self1 ->
  let error :=
    PetanqueError ("Sent request " ++ str_of_int (id self1) ++
                   ", got response " ++ str_of_int (Response.id resp))%string in
  (exists request,
      mk_request (id self1) params = inr request /\
      Request.id request = id self1 /\
      Socket.sent (socket self1) = Socket.sent (socket self) ++ [payload request]) /\
  query params size self = Raise error self1 /\
  queue self1 = queue self /\
  (forall (B : Type) (rest : Response.t -> M B),
      (r <- query params size ;; rest r) self = Raise error self1).
Proof.
  intros Ht Hresp Hneq error.
  destruct (transmit_Return params size self self1 raw Ht) as (Hid & Hq & Hreq).
  assert (Hquery : query params size self = Raise error self1).
  { rewrite query_transmit. unfold bind. rewrite Ht, parse_reply_cases, Hresp.
    destruct (Z.eqb_spec (Response.id resp) (id self1)); [contradiction|].
    reflexivity. }
  repeat split; auto.
  intros B rest. unfold bind. rewrite Hquery. reflexivity.
Qed.

(** The third request of the session is answered under the id 7. *)
Lemma id_mismatch_raises_witness :
  transmit (H:=Compact.protocol) (GoalsParams (JInt 42)) 1024
    (awaiting [] [Compact.reply "7 int 0"]) =
  Return (list_byte_of_string "7 int 0")
    (final (transmit (H:=Compact.protocol) (GoalsParams (JInt 42)) 1024
              (awaiting [] [Compact.reply "7 int 0"]))) /\
  query (H:=Compact.protocol) (GoalsParams (JInt 42)) 1024
    (awaiting [] [Compact.reply "7 int 0"]) =
  Raise (PetanqueError "Sent request 3, got response 7")
    (final (transmit (H:=Compact.protocol) (GoalsParams (JInt 42)) 1024
              (awaiting [] [Compact.reply "7 int 0"]))) /\
  queue (final (transmit (H:=Compact.protocol) (GoalsParams (JInt 42)) 1024
                  (awaiting [] [Compact.reply "7 int 0"]))) =
  queue (awaiting [] [Compact.reply "7 int 0"]).
Proof.
  assert (Ht :
            transmit (H:=Compact.protocol) (GoalsParams (JInt 42)) 1024
              (awaiting [] [Compact.reply "7 int 0"]) =
            Return (list_byte_of_string "7 int 0")
              (final (transmit (H:=Compact.protocol) (GoalsParams (JInt 42)) 1024
                        (awaiting [] [Compact.reply "7 int 0"]))))
    by (vm_compute; reflexivity).
  assert (Hresp :
            Response_of_bytes (H:=Compact.protocol) (list_byte_of_string "7 int 0") =
            inr (Response.mk 7 (JInt 0)))
    by (vm_compute; reflexivity).
  assert (Hneq :
            Response.id (Response.mk 7 (JInt 0)) <>
            id (final (transmit (H:=Compact.protocol) (GoalsParams (JInt 42)) 1024
                         (awaiting [] [Compact.reply "7 int 0"]))))
    by (vm_compute; discriminate).
  split; [exact Ht|].
  destruct (id_mismatch_raises (H:=Compact.protocol) _ _ _ _ _ _ Ht Hresp Hneq)
    as (_ & Hquery & Hqueue & _).
  split; [exact Hquery | exact Hqueue].
Defined.

Example start_id_mismatch :
  let self := awaiting [] [Compact.reply "7 int 0"] in
  let after := final (start (H:=Compact.protocol) "/proj/a.v" "foo" self) in
  start (H:=Compact.protocol) "/proj/a.v" "foo" self =
    Raise (PetanqueError "Sent request 3, got response 7") after /\
  queue after = [].
Proof. vm_compute. split; reflexivity. Qed.

(** C8, as the code has it.  When the received bytes do not decode as a
    Response, [query] never returns a response, and what it raises is
    settled by the exception of the decoder.  After a ValueError, the one
    [except ValueError] catches, the same bytes are decoded as a Failure:
    when that succeeds [query] raises a PetanqueError whose message is
    exactly that Failure's error; when it fails too (a reply that is
    neither a Response nor a Failure) the exception of the Failure decoder
    goes to the caller and no PetanqueError is raised.  Any other
    exception of the Response decoder goes to the caller as it is. *)
Theorem undecodable_reply_outcomes `{Protocol}
  (params : Params) (size : Z) (self self1 : t) (raw : bytes) (e : exn) :
  transmit params size self = Return raw self1 ->
  Response_of_bytes raw = inl e ->
  query params size self =
    (if is_ValueError e
     then match Failure_of_bytes raw with
          | inr failure => Raise (PetanqueError (Failure.error failure)) self1
          | inl e' => Raise e' self1
          end
     else Raise e self1) /\
  (forall resp self', query params size self <> Return resp self').
Proof.
  intros Ht Hresp.
  assert (Hquery : query params size self = parse_reply raw self1).
  { rewrite query_transmit. unfold bind. rewrite Ht. reflexivity. }
  rewrite Hquery, parse_reply_cases, Hresp. split; [reflexivity|].
  intros resp self'.
  destruct (is_ValueError e); [destruct (Failure_of_bytes raw)|]; discriminate.
Qed.

(** The server answers with a failure. *)
Lemma undecodable_reply_outcomes_witness :
  transmit (H:=Compact.protocol) (GoalsParams (JInt 42)) 1024
    (awaiting [] [Compact.reply "error oops"]) =
  Return (list_byte_of_string "error oops")
    (final (transmit (H:=Compact.protocol) (GoalsParams (JInt 42)) 1024
              (awaiting [] [Compact.reply "error oops"]))) /\
  Response_of_bytes (H:=Compact.protocol) (list_byte_of_string "error oops") =
    inl (ValueError "missing field") /\
  query (H:=Compact.protocol) (GoalsParams (JInt 42)) 1024
    (awaiting [] [Compact.reply "error oops"]) =
  Raise (PetanqueError "oops")
    (final (transmit (H:=Compact.protocol) (GoalsParams (JInt 42)) 1024
              (awaiting [] [Compact.reply "error oops"]))).
Proof.
  assert (Ht :
            transmit (H:=Compact.protocol) (GoalsParams (JInt 42)) 1024
              (awaiting [] [Compact.reply "error oops"]) =
            Return (list_byte_of_string "error oops")
              (final (transmit (H:=Compact.protocol) (GoalsParams (JInt 42)) 1024
                        (awaiting [] [Compact.reply "error oops"]))))
    by (vm_compute; reflexivity).
  assert (Hresp :
            Response_of_bytes (H:=Compact.protocol) (list_byte_of_string "error oops") =
            inl (ValueError "missing field"))
    by (vm_compute; reflexivity).
  assert (Hfail :
            Failure_of_bytes (H:=Compact.protocol) (list_byte_of_string "error oops") =
            inr (Failure.mk "oops"))
    by (vm_compute; reflexivity).
  split; [exact Ht|]. split; [exact Hresp|].
  pose proof (proj1 (undecodable_reply_outcomes (H:=Compact.protocol) _ _ _ _ _ _ Ht Hresp))
    as Hquery.
  rewrite Hfail in Hquery. exact Hquery.
Defined.

(** C8 fails on the code: a reply that decodes neither as a Response nor
    as a Failure makes [query] raise the ValueError of the second
    decoding; no PetanqueError is raised, whatever its message. *)
Lemma undecodable_reply_counterexample :
  transmit (H:=Compact.protocol) (GoalsParams (JInt 42)) 1024
    (awaiting [] [Compact.reply "oops"]) =
  Return (list_byte_of_string "oops")
    (final (transmit (H:=Compact.protocol) (GoalsParams (JInt 42)) 1024
              (awaiting [] [Compact.reply "oops"]))) /\
  Response_of_bytes (H:=Compact.protocol) (list_byte_of_string "oops") =
    inl (ValueError "missing field") /\
  Failure_of_bytes (H:=Compact.protocol) (list_byte_of_string "oops") =
    inl (ValueError "missing field error") /\
  query (H:=Compact.protocol) (GoalsParams (JInt 42)) 1024
    (awaiting [] [Compact.reply "oops"]) =
  Raise (ValueError "missing field error")
    (final (transmit (H:=Compact.protocol) (GoalsParams (JInt 42)) 1024
              (awaiting [] [Compact.reply "oops"]))) /\
  (forall msg self',
      query (H:=Compact.protocol) (GoalsParams (JInt 42)) 1024
        (awaiting [] [Compact.reply "oops"]) <> Raise (PetanqueError msg) self').
Proof.
  assert (Hquery :
            query (H:=Compact.protocol) (GoalsParams (JInt 42)) 1024
              (awaiting [] [Compact.reply "oops"]) =
            Raise (ValueError "missing field error")
              (final (transmit (H:=Compact.protocol) (GoalsParams (JInt 42)) 1024
                        (awaiting [] [Compact.reply "oops"]))))
    by (vm_compute; reflexivity).
  split; [vm_compute; reflexivity|]. split; [vm_compute; reflexivity|].
  split; [vm_compute; reflexivity|]. split; [exact Hquery|].
  intros msg self'. rewrite Hquery. discriminate.
Qed.

(** A reply that is neither a Response nor a Failure: the ValueError of
    the second decoding is what the caller gets. *)
Example reply_neither_response_nor_failure :
  let self := awaiting [] [Compact.reply "oops"] in
  query (H:=Compact.protocol) (GoalsParams (JInt 42)) 1024 self =
  Raise (ValueError "missing field error")
    (final (query (H:=Compact.protocol) (GoalsParams (JInt 42)) 1024 self)).
Proof. reflexivity. Qed.

(** * Request ids *)

Section Numbered.
Context `{Protocol}.

Lemma numbered_wire (self self' : t) :
  socket self' = socket self -> id self' = id self ->
  numbered self -> numbered self'.
Proof.
  intros Hs Hi (requests & Hsent & Hids & Hid).
  exists requests. rewrite Hs, Hi. auto.
Qed.

Lemma query_numbered (params : Params) (size : Z) :
  known params = true -> keeps numbered (query params size).
Proof.
  intros Hknown self (requests & Hsent & Hids & Hid).
  rewrite query_final_transmit.
  pose proof (transmit_final params size self) as [_ Hid'].
  pose proof (transmit_sent params size self) as Hsent'.
  destruct (mk_request (id self + 1) params) as [e|request] eqn:Emk.
  { destruct params; discriminate. }
  exists (requests ++ [request]). split; [|split].
  - rewrite Hsent', Hsent, map_app. reflexivity.
  - intros n r Hn.
    destruct (Nat.lt_ge_cases n (List.length requests)) as [Hlt|Hge].
    + rewrite nth_error_app1 in Hn by exact Hlt. auto.
    + rewrite nth_error_app2 in Hn by exact Hge.
      destruct (n - List.length requests)%nat as [|k] eqn:Ek; simpl in Hn.
      * inversion Hn; subst r.
        rewrite (mk_request_id _ _ _ Emk), Hid. lia.
      * destruct k; discriminate.
  - rewrite Hid', Hid, length_app. simpl. lia.
Qed.

Lemma update_numbered (f : t -> t) :
  (forall self, socket (f self) = socket self /\ id (f self) = id self) ->
  keeps numbered (update f).
Proof.
  intros Hf. apply keeps_update. intros self.
  apply numbered_wire; apply Hf.
Qed.

Lemma setter_numbered (f : t -> t) :
  (forall self, socket (f self) = socket self) ->
  (forall self, id (f self) = id self) ->
  keeps numbered (update f).
Proof. intros Hs Hi. apply update_numbered. auto. Qed.

Lemma start_numbered (file thm : string) : keeps numbered (start file thm).
Proof.
  unfold start.
  apply keeps_bind; [apply setter_numbered; reflexivity | intros _].
  apply keeps_bind; [apply setter_numbered; reflexivity | intros _].
  apply keeps_bind; [apply setter_numbered; reflexivity | intros _].
  apply keeps_bind; [apply keeps_gets | intros self_env].
  apply keeps_bind; [apply keeps_gets | intros self_thm].
  apply keeps_bind; [apply query_numbered; reflexivity | intros resp].
  apply setter_numbered; reflexivity.
Qed.

Lemma run_tac_numbered (tac : string) : keeps numbered (run_tac tac).
Proof.
  unfold run_tac.
  apply keeps_bind; [apply keeps_current_state | intros st].
  apply keeps_bind; [apply query_numbered; reflexivity | intros resp].
  apply keeps_bind; [apply keeps_lift | intros res].
  apply keeps_bind; [|intros _; apply keeps_ret].
  destruct (RunResponse.value res);
    [apply setter_numbered; reflexivity .. | apply keeps_raise].
Qed.

Lemma exec_numbered (c : call) : keeps numbered (exec c).
Proof.
  destruct c as [root|f th|tac| | | |]; simpl.
  - unfold init. apply keeps_bind; [apply query_numbered; reflexivity|].
    intros resp. apply setter_numbered; reflexivity.
  - apply start_numbered.
  - apply keeps_bind; [apply run_tac_numbered | intros _; apply keeps_ret].
  - unfold goals.
    apply keeps_bind; [|intros _; apply keeps_ret].
    apply keeps_bind; [apply keeps_current_state | intros st].
    apply keeps_bind; [apply query_numbered; reflexivity | intros resp].
    apply keeps_bind; [apply keeps_lift | intros res; apply keeps_ret].
  - unfold premises.
    apply keeps_bind; [|intros _; apply keeps_ret].
    apply keeps_bind; [apply keeps_current_state | intros st].
    apply keeps_bind; [apply query_numbered; reflexivity | intros resp].
    apply keeps_bind; [apply keeps_lift | intros res].
    apply keeps_bind; [apply keeps_lift | intros n; apply keeps_ret].
  - apply keeps_bind; [|intros _; apply keeps_ret].
    intros self. rewrite (proj1 (backtrack_final self)).
    apply numbered_wire; reflexivity.
  - unfold reset.
    apply keeps_bind; [apply keeps_gets | intros self_file].
    apply keeps_bind; [apply keeps_gets | intros self_thm].
    apply start_numbered.
Qed.

Lemma run_numbered (calls : list call) (self : t) :
  numbered self -> numbered (run calls self).
Proof.
  revert self. induction calls as [|c calls IH]; intros self Hn; simpl; [exact Hn|].
  pose proof (exec_numbered c self Hn) as Hc.
  destruct (exec c self); simpl in Hc; auto.
Qed.
End Numbered.

(** C4.  Take a new client and any sequence of calls, against any
    behaviour of the socket.  The payloads handed to the socket, in
    order, are the encodings of requests of which the n-th (counting from
    1) has id n: the first id is 1 and each next id is the one before plus
    1, whatever the calls were and however they ended.  The counter is
    the number of requests made. *)
Theorem request_ids_count_from_one `{Protocol}
  (host : string) (port : Z) (faults : list (option exn)) (inc : list recv_event)
  (calls : list call) :
  let self := run calls (__init__ host port faults inc) in
  exists requests : list Request.t,
    Socket.sent (socket self) = map payload requests /\
    (forall n request,
        nth_error requests n = Some request ->
        Request.id request = Z.of_nat n + 1) /\
    id self = Z.of_nat (List.length requests).
Proof.
  apply run_numbered. exists []. repeat split.
  intros n request Hn. destruct n; discriminate.
Qed.

(** The ids of the scenario of the specification, with a tactic the server
    refuses and a backtrack added: five requests, numbered 1 to 5. *)
Example scenario_request_ids :
  let self :=
    run (H:=Compact.protocol)
      [Init "/proj"; Start "/proj/a.v" "foo"; RunTac "intro x."; RunTac "oops.";
       Backtrack; RunTac "reflexivity."]
      (__init__ "localhost" 8765 []
         [Compact.reply "1 int 7"; Compact.reply "2 int 42";
          Compact.reply "3 CurrentState 43"; Compact.reply "error no";
          Compact.reply "5 ProofFinished 44"]) in
  id self = 5 /\
  List.length (Socket.sent (socket self)) = 5%nat /\
  env self = JInt 7 /\
  queue self = [State.mk (JInt 42) "Start"; State.mk (JInt 44) "reflexivity."].
Proof. repeat split. Qed.

(** The scenario of the specification: init, start, two tactics, and the
    backtrack that undoes the second. *)
Example specification_scenario :
  let self :=
    run (H:=Compact.protocol)
      [Init "/proj"; Start "/proj/a.v" "foo"; RunTac "intro x."; RunTac "reflexivity."]
      (__init__ "localhost" 8765 []
         [Compact.reply "1 int 7"; Compact.reply "2 int 42";
          Compact.reply "3 CurrentState 43"; Compact.reply "4 ProofFinished 44"]) in
  env self = JInt 7 /\
  queue self = [State.mk (JInt 42) "Start"; State.mk (JInt 43) "intro x.";
                State.mk (JInt 44) "reflexivity."] /\
  backtrack self =
    Return (JInt 44, "reflexivity.")
      (set_queue [State.mk (JInt 42) "Start"; State.mk (JInt 43) "intro x."] self).
Proof. vm_compute. repeat split. Qed.

(** * Further properties of the client *)

(** ** mk_request *)

(** X1.  A request that [mk_request] builds carries the id it was given
    and the JSON of its parameters, and its method tells the kind of the
    parameters: two requests with the same method were built from
    parameters of the same kind.  Only the five known kinds are
    accepted. *)
Theorem mk_request_method_kind `{Protocol}
  (i : Z) (params : Params) (request : Request.t) :
  mk_request i params = inr request ->
  Request.id request = i /\
  Request.params request = Params_to_json params /\
  known params = true /\
  (forall j params' request',
      mk_request j params' = inr request' ->
      Request.method request' = Request.method request ->
      kind_of params' = kind_of params).
Proof.
  intros Hmk.
  destruct params; simpl in Hmk; inversion Hmk; subst; simpl;
    (split; [reflexivity|]); (split; [reflexivity|]); (split; [reflexivity|]);
    intros j params' request' Hmk' Hmethod;
    destruct params'; simpl in Hmk'; inversion Hmk'; subst; simpl in *;
    solve [reflexivity | discriminate Hmethod].
Qed.

Lemma mk_request_method_kind_witness :
  mk_request (H:=Compact.protocol) 3 (RunParams (JInt 42) "intro x.") =
    inr (Request.mk 3 "petanque/run"
           (Compact.params_to_json (RunParams (JInt 42) "intro x."))) /\
  forall j params' request',
    mk_request (H:=Compact.protocol) j params' = inr request' ->
    Request.method request' = "petanque/run" ->
    kind_of params' = KRun.
Proof.
  split; [reflexivity|].
  exact (proj2 (proj2 (proj2
           (mk_request_method_kind (H:=Compact.protocol) 3
              (RunParams (JInt 42) "intro x.") _ eq_refl)))).
Defined.

(** ** query *)

Section QueryPaths.
Context `{Protocol}.

Lemma known_mk_request (i : Z) (params : Params) :
  known params = true -> exists request, mk_request i params = inr request.
Proof.
  destruct params; simpl; intros Hk; try discriminate; eexists; reflexivity.
Qed.

(** [query], stage by stage. *)
Lemma query_cases (params : Params) (size : Z) (self : t) :
  query params size self =
  match transmit params size self with
  | Return raw self1 => parse_reply raw self1
  | Raise e self1 => Raise e self1
  | Block self1 => Block self1
  end.
Proof. rewrite query_transmit. reflexivity. Qed.

Lemma transmit_cases (params : Params) (size : Z) (self : t) :
  transmit params size self =
  match mk_request (id self + 1) params with
  | inl e => Raise e (set_id (id self + 1) self)
  | inr request =>
      match Socket.sendall (payload request) (socket self) with
      | (sock, Some e) => Raise e (set_socket sock (set_id (id self + 1) self))
      | (sock, None) =>
          receive size (set_socket sock (set_id (id self + 1) self))
      end
  end.
Proof.
  unfold transmit, sendall. unfold_monad. simpl.
  destruct (mk_request (id self + 1) params) as [e|request]; simpl; [reflexivity|].
  destruct (Socket.sendall _ _) as [sock [e|]]; reflexivity.
Qed.
End QueryPaths.

(** X2.  Parameters of no known kind are refused after the counter has
    moved: [query] raises PetanqueError("Invalid request params"), nothing
    reaches the socket, and the id is used up, so that the next request
    is sent under the id after it. *)
Theorem query_unknown_params_uses_an_id `{Protocol}
  (size size' : Z) (self : t) (params : Params) :
  known params = true ->
  query UnknownParams size self =
    Raise (PetanqueError "Invalid request params") (set_id (id self + 1) self) /\
  socket (final (query UnknownParams size self)) = socket self /\
  exists request,
    mk_request (id self + 2) params = inr request /\
    Request.id request = id self + 2 /\
    Socket.sent (socket (final (query params size'
                                  (final (query UnknownParams size self))))) =
    Socket.sent (socket self) ++ [payload request].
Proof.
  intros Hknown.
  assert (Hq : query UnknownParams size self =
               Raise (PetanqueError "Invalid request params") (set_id (id self + 1) self)).
  { rewrite query_cases, transmit_cases. reflexivity. }
  rewrite Hq. simpl. split; [reflexivity|]. split; [reflexivity|].
  destruct (known_mk_request (id self + 2) params Hknown) as [request Hmk].
  exists request. split; [exact Hmk|]. split; [exact (mk_request_id _ _ _ Hmk)|].
  rewrite query_final_transmit.
  pose proof (transmit_sent params size' (set_id (id self + 1) self)) as Hsent.
  simpl in Hsent. replace (id self + 1 + 1) with (id self + 2) in Hsent by lia.
  rewrite Hmk in Hsent. exact Hsent.
Qed.

Lemma query_unknown_params_uses_an_id_witness :
  known (GoalsParams (JInt 42)) = true /\
  query (H:=Compact.protocol) UnknownParams 1024 (awaiting [] []) =
    Raise (PetanqueError "Invalid request params")
      (set_id (id (awaiting [] []) + 1) (awaiting [] [])).
Proof.
  split; [reflexivity|].
  exact (proj1 (query_unknown_params_uses_an_id (H:=Compact.protocol) 1024 1024
                  (awaiting [] []) (GoalsParams (JInt 42)) eq_refl)).
Defined.

(** X3.  [query] returns a response exactly when the reply was received,
    decodes as a Response, and carries the id of the request just sent;
    the session it leaves is the one the receive loop left. *)
Theorem query_returns_iff `{Protocol}
  (params : Params) (size : Z) (self self' : t) (resp : Response.t) :
  query params size self = Return resp self' <->
  exists raw,
    transmit params size self = Return raw self' /\
    Response_of_bytes raw = inr resp /\
    Response.id resp = id self + 1.
Proof.
  rewrite query_cases.
  pose proof (transmit_final params size self) as [_ Hid].
  destruct (transmit params size self) as [raw s1|e s1|s1]; simpl in Hid.
  - rewrite parse_reply_cases. split.
    + destruct (Response_of_bytes raw) as [e|r] eqn:Eresp.
      * destruct (is_ValueError e); [destruct (Failure_of_bytes raw)|]; discriminate.
      * destruct (Z.eqb_spec (Response.id r) (id s1)) as [Heq|]; [|discriminate].
        intros Hr; inversion Hr; subst. exists raw.
        split; [reflexivity|]. split; [exact Eresp|]. congruence.
    + intros (raw' & Ht & Hresp & Hrid). inversion Ht; subst.
      rewrite Hresp. rewrite Hid, <- Hrid, Z.eqb_refl. reflexivity.
  - split; [discriminate|]. intros (raw & Ht & _); discriminate.
  - split; [discriminate|]. intros (raw & Ht & _); discriminate.
Qed.

Lemma query_returns_iff_witness :
  query (H:=Compact.protocol) (GoalsParams (JInt 42)) 1024
    (awaiting [] [Compact.reply "3 int 0"]) =
  Return (Response.mk 3 (JInt 0))
    (final (transmit (H:=Compact.protocol) (GoalsParams (JInt 42)) 1024
              (awaiting [] [Compact.reply "3 int 0"]))).
Proof.
  apply (proj2 (query_returns_iff (H:=Compact.protocol) _ _ _ _ _)).
  exists (list_byte_of_string "3 int 0").
  split; [vm_compute; reflexivity|]. split; vm_compute; reflexivity.
Defined.

(** X4.  When [sendall] raises, [query] raises the same exception at
    once: the counter has moved and the payload was handed over, and
    nothing is read, so whatever the socket holds stays there for the
    next call. *)
Theorem query_send_failure `{Protocol}
  (params : Params) (size : Z) (self : t) (e : exn) (rest : list (option exn)) :
  known params = true ->
  Socket.send_faults (socket self) = Some e :: rest ->
  exists request,
    mk_request (id self + 1) params = inr request /\
    query params size self =
    Raise e
      (set_socket
         (Socket.mk (Socket.sent (socket self) ++ [payload request]) rest
            (Socket.incoming (socket self)))
         (set_id (id self + 1) self)).
Proof.
  intros Hknown Hfaults.
  destruct (known_mk_request (id self + 1) params Hknown) as [request Hmk].
  exists request. split; [exact Hmk|].
  rewrite query_cases, transmit_cases, Hmk.
  unfold Socket.sendall. rewrite Hfaults. reflexivity.
Qed.

Lemma query_send_failure_witness :
  exists request,
    mk_request (H:=Compact.protocol) (id (awaiting [Some (OSError "Broken pipe")]
                                            [Compact.reply "3 int 0"]) + 1)
      (GoalsParams (JInt 42)) = inr request /\
    query (H:=Compact.protocol) (GoalsParams (JInt 42)) 1024
      (awaiting [Some (OSError "Broken pipe")] [Compact.reply "3 int 0"]) =
    Raise (OSError "Broken pipe")
      (set_socket
         (Socket.mk
            (Socket.sent (socket (awaiting [Some (OSError "Broken pipe")]
                                    [Compact.reply "3 int 0"])) ++
             [payload (H:=Compact.protocol) request])
            []
            (Socket.incoming (socket (awaiting [Some (OSError "Broken pipe")]
                                        [Compact.reply "3 int 0"]))))
         (set_id (id (awaiting [Some (OSError "Broken pipe")]
                        [Compact.reply "3 int 0"]) + 1)
            (awaiting [Some (OSError "Broken pipe")] [Compact.reply "3 int 0"]))).
Proof.
  exact (query_send_failure (H:=Compact.protocol) (GoalsParams (JInt 42)) 1024
           (awaiting [Some (OSError "Broken pipe")] [Compact.reply "3 int 0"])
           (OSError "Broken pipe") [] eq_refl eq_refl).
Defined.

(** ** The receive loop, when no chunk is short *)

Lemma recv_loop_never_short (size : Z) :
  forall (inc : list recv_event) (fragments : list bytes),
    never_short size inc ->
    forall got rest, recv_loop size inc fragments <> Received got rest.
Proof.
  induction inc as [|[chunk|e] inc IH]; intros fragments Hns got rest; simpl;
    try discriminate.
  destruct (Z.ltb_spec (Z.of_nat (List.length chunk)) size) as [Hlt|Hge].
  - specialize (Hns chunk (or_introl eq_refl)). lia.
  - apply IH. intros c Hc. apply Hns. right. exact Hc.
Qed.

Lemma recv_loop_full_chunks (size : Z) :
  forall (chunks : list bytes) (fragments : list bytes),
    Forall (fun c => size <= Z.of_nat (List.length c)) chunks ->
    recv_loop size (map Chunk chunks) fragments = RecvBlocked.
Proof.
  induction chunks as [|c chunks IH]; intros fragments Hall; simpl; [reflexivity|].
  inversion Hall; subst.
  destruct (Z.ltb_spec (Z.of_nat (List.length c)) size); [lia|].
  apply IH. assumption.
Qed.

Lemma recv_loop_error (size : Z) (e : exn) (rest : list recv_event) :
  forall (chunks : list bytes) (fragments : list bytes),
    Forall (fun c => size <= Z.of_nat (List.length c)) chunks ->
    recv_loop size (map Chunk chunks ++ RecvError e :: rest) fragments =
    RecvRaised e rest.
Proof.
  induction chunks as [|c chunks IH]; intros fragments Hall; simpl; [reflexivity|].
  inversion Hall; subst.
  destruct (Z.ltb_spec (Z.of_nat (List.length c)) size); [lia|].
  apply IH. assumption.
Qed.

Lemma sendall_succeeds (data : bytes) (sock : Socket.t) :
  hd None (Socket.send_faults sock) = None ->
  Socket.sendall data sock =
  (Socket.mk (Socket.sent sock ++ [data]) (tl (Socket.send_faults sock))
     (Socket.incoming sock), None).
Proof.
  unfold Socket.sendall.
  destruct (Socket.send_faults sock) as [|fault rest]; simpl; [reflexivity|].
  intros ->. reflexivity.
Qed.

(** X5.  [query] returns only if some chunk is shorter than [size]: when
    none of the chunks the socket will return is, the call raises or never
    comes back, whatever the chunks hold. *)
Theorem query_needs_a_short_chunk `{Protocol}
  (params : Params) (size : Z) (self : t) :
  never_short size (Socket.incoming (socket self)) ->
  forall resp self', query params size self <> Return resp self'.
Proof.
  intros Hns resp self'. rewrite query_cases, transmit_cases.
  destruct (mk_request (id self + 1) params) as [e|request]; [discriminate|].
  unfold Socket.sendall.
  destruct (Socket.send_faults (socket self)) as [|[e|] rest]; try discriminate;
    unfold receive; simpl;
    pose proof (recv_loop_never_short size _ [] Hns) as Hloop;
    destruct (recv_loop size (Socket.incoming (socket self)) []);
    try discriminate; exfalso; eapply Hloop; reflexivity.
Qed.

(** A reply of exactly [size] bytes, complete and well formed, and nothing
    after it. *)
Lemma query_needs_a_short_chunk_witness :
  never_short 7
    (Socket.incoming (socket (awaiting [] [Compact.reply "3 int 0"]))) /\
  forall resp self',
    query (H:=Compact.protocol) (GoalsParams (JInt 42)) 7
      (awaiting [] [Compact.reply "3 int 0"]) <> Return resp self'.
Proof.
  assert (Hns : never_short 7
                  (Socket.incoming (socket (awaiting [] [Compact.reply "3 int 0"])))).
  { intros chunk [Hc|[]]. inversion Hc; subst. simpl. lia. }
  split; [exact Hns|].
  exact (query_needs_a_short_chunk (H:=Compact.protocol) (GoalsParams (JInt 42)) 7
           (awaiting [] [Compact.reply "3 int 0"]) Hns).
Defined.

(** X6.  With a chunk size of zero or less no chunk is short, so [query]
    never returns, whatever the server sends. *)
Theorem query_nonpositive_size_never_returns `{Protocol}
  (params : Params) (size : Z) (self : t) :
  size <= 0 ->
  forall resp self', query params size self <> Return resp self'.
Proof.
  intros Hsize resp self' Hq.
  assert (Hns : never_short size (Socket.incoming (socket self))).
  { intros chunk _. lia. }
  rewrite query_cases, transmit_cases in Hq.
  destruct (mk_request (id self + 1) params) as [e|request]; [discriminate|].
  unfold Socket.sendall in Hq.
  destruct (Socket.send_faults (socket self)) as [|[e|] rest]; try discriminate;
    unfold receive in Hq; simpl in Hq;
    pose proof (recv_loop_never_short size _ [] Hns) as Hloop;
    destruct (recv_loop size (Socket.incoming (socket self)) []);
    try discriminate; eapply Hloop; reflexivity.
Qed.

Lemma query_nonpositive_size_never_returns_witness :
  0 <= 0 /\
  forall resp self',
    query (H:=Compact.protocol) (GoalsParams (JInt 42)) 0
      (awaiting [] [Compact.reply "3 int 0"; Chunk []]) <> Return resp self'.
Proof.
  split; [lia|].
  exact (query_nonpositive_size_never_returns (H:=Compact.protocol)
           (GoalsParams (JInt 42)) 0
           (awaiting [] [Compact.reply "3 int 0"; Chunk []]) (Z.le_refl 0)).
Defined.

(** X7.  When the request goes out and every chunk that arrives is full,
    [query] never comes back: it has sent the request, read all the chunks
    and is waiting for more.  A complete reply whose length is a multiple
    of [size] hangs the client. *)
Theorem query_hangs_on_full_chunks `{Protocol}
  (params : Params) (size : Z) (self : t) (chunks : list bytes) :
  known params = true ->
  hd None (Socket.send_faults (socket self)) = None ->
  Socket.incoming (socket self) = map Chunk chunks ->
  Forall (fun c => size <= Z.of_nat (List.length c)) chunks ->
  exists request,
    mk_request (id self + 1) params = inr request /\
    query params size self =
    Block
      (set_socket
         (Socket.mk (Socket.sent (socket self) ++ [payload request])
            (tl (Socket.send_faults (socket self))) [])
         (set_id (id self + 1) self)).
Proof.
  intros Hknown Hsend Hinc Hfull.
  destruct (known_mk_request (id self + 1) params Hknown) as [request Hmk].
  exists request. split; [exact Hmk|].
  rewrite query_cases, transmit_cases, Hmk, (sendall_succeeds _ _ Hsend).
  unfold receive. simpl. rewrite Hinc, (recv_loop_full_chunks size chunks [] Hfull).
  reflexivity.
Qed.

Lemma query_hangs_on_full_chunks_witness :
  exists request,
    mk_request (H:=Compact.protocol)
      (id (awaiting [] (map Chunk [list_byte_of_string "3 int 0"])) + 1)
      (GoalsParams (JInt 42)) = inr request /\
    query (H:=Compact.protocol) (GoalsParams (JInt 42)) 7
      (awaiting [] (map Chunk [list_byte_of_string "3 int 0"])) =
    Block
      (set_socket
         (Socket.mk
            (Socket.sent (socket (awaiting [] (map Chunk [list_byte_of_string "3 int 0"])))
               ++ [payload (H:=Compact.protocol) request])
            (tl (Socket.send_faults
                   (socket (awaiting [] (map Chunk [list_byte_of_string "3 int 0"])))))
            [])
         (set_id (id (awaiting [] (map Chunk [list_byte_of_string "3 int 0"])) + 1)
            (awaiting [] (map Chunk [list_byte_of_string "3 int 0"])))).
Proof.
  apply (query_hangs_on_full_chunks (H:=Compact.protocol) (GoalsParams (JInt 42)) 7
           (awaiting [] (map Chunk [list_byte_of_string "3 int 0"]))
           [list_byte_of_string "3 int 0"]).
  - reflexivity.
  - reflexivity.
  - reflexivity.
  - constructor; [simpl; lia | constructor].
Defined.

(** X8.  When [recv] raises after full chunks have been read, [query]
    raises that exception and the chunks read so far are dropped: they are
    no longer in the socket and reach no decoder. *)
Theorem query_recv_failure `{Protocol}
  (params : Params) (size : Z) (self : t)
  (chunks : list bytes) (e : exn) (rest : list recv_event) :
  known params = true ->
  hd None (Socket.send_faults (socket self)) = None ->
  Socket.incoming (socket self) = map Chunk chunks ++ RecvError e :: rest ->
  Forall (fun c => size <= Z.of_nat (List.length c)) chunks ->
  exists request,
    mk_request (id self + 1) params = inr request /\
    query params size self =
    Raise e
      (set_socket
         (Socket.mk (Socket.sent (socket self) ++ [payload request])
            (tl (Socket.send_faults (socket self))) rest)
         (set_id (id self + 1) self)).
Proof.
  intros Hknown Hsend Hinc Hfull.
  destruct (known_mk_request (id self + 1) params Hknown) as [request Hmk].
  exists request. split; [exact Hmk|].
  rewrite query_cases, transmit_cases, Hmk, (sendall_succeeds _ _ Hsend).
  unfold receive. simpl. rewrite Hinc, (recv_loop_error size e rest chunks [] Hfull).
  reflexivity.
Qed.

Lemma query_recv_failure_witness :
  exists request,
    mk_request (H:=Compact.protocol)
      (id (awaiting [] (map Chunk [list_byte_of_string "3 int 0"] ++
                        RecvError (OSError "Connection reset by peer") :: [])) + 1)
      (GoalsParams (JInt 42)) = inr request /\
    query (H:=Compact.protocol) (GoalsParams (JInt 42)) 7
      (awaiting [] (map Chunk [list_byte_of_string "3 int 0"] ++
                    RecvError (OSError "Connection reset by peer") :: [])) =
    Raise (OSError "Connection reset by peer")
      (set_socket
         (Socket.mk
            (Socket.sent
               (socket (awaiting [] (map Chunk [list_byte_of_string "3 int 0"] ++
                                     RecvError (OSError "Connection reset by peer") :: [])))
               ++ [payload (H:=Compact.protocol) request])
            (tl (Socket.send_faults
                   (socket (awaiting [] (map Chunk [list_byte_of_string "3 int 0"] ++
                                         RecvError (OSError "Connection reset by peer") :: [])))))
            [])
         (set_id
            (id (awaiting [] (map Chunk [list_byte_of_string "3 int 0"] ++
                              RecvError (OSError "Connection reset by peer") :: [])) + 1)
            (awaiting [] (map Chunk [list_byte_of_string "3 int 0"] ++
                          RecvError (OSError "Connection reset by peer") :: [])))).
Proof.
  apply (query_recv_failure (H:=Compact.protocol) (GoalsParams (JInt 42)) 7
           (awaiting [] (map Chunk [list_byte_of_string "3 int 0"] ++
                         RecvError (OSError "Connection reset by peer") :: []))
           [list_byte_of_string "3 int 0"] (OSError "Connection reset by peer") []).
  - reflexivity.
  - reflexivity.
  - reflexivity.
  - constructor; [simpl; lia | constructor].
Defined.

(** ** Replies that do not decode *)

(** X9.  The other ways a reply fails to decode.  An exception of the
    Response decoder that is not a ValueError goes to the caller as it is,
    and the Failure decoder is not tried.  After a ValueError, when the
    bytes do not decode as a Failure either, the caller gets the exception
    of the Failure decoder, not a PetanqueError. *)
Theorem query_decoding_failures `{Protocol}
  (params : Params) (size : Z) (self self1 : t) (raw : bytes) (e : exn) :
  transmit params size self = Return raw self1 ->
  Response_of_bytes raw = inl e ->
  (is_ValueError e = false -> query params size self = Raise e self1) /\
  (is_ValueError e = true ->
   forall e', Failure_of_bytes raw = inl e' -> query params size self = Raise e' self1).
Proof.
  intros Ht Hresp.
  rewrite query_cases, Ht, parse_reply_cases, Hresp.
  split.
  - intros ->. reflexivity.
  - intros -> e' ->. reflexivity.
Qed.

Lemma query_decoding_failures_witness :
  transmit (H:=Compact.protocol) (GoalsParams (JInt 42)) 1024
    (awaiting [] [Compact.reply "oops"]) =
  Return (list_byte_of_string "oops")
    (final (transmit (H:=Compact.protocol) (GoalsParams (JInt 42)) 1024
              (awaiting [] [Compact.reply "oops"]))) /\
  query (H:=Compact.protocol) (GoalsParams (JInt 42)) 1024
    (awaiting [] [Compact.reply "oops"]) =
  Raise (ValueError "missing field error")
    (final (transmit (H:=Compact.protocol) (GoalsParams (JInt 42)) 1024
              (awaiting [] [Compact.reply "oops"]))).
Proof.
  assert (Ht :
            transmit (H:=Compact.protocol) (GoalsParams (JInt 42)) 1024
              (awaiting [] [Compact.reply "oops"]) =
            Return (list_byte_of_string "oops")
              (final (transmit (H:=Compact.protocol) (GoalsParams (JInt 42)) 1024
                        (awaiting [] [Compact.reply "oops"]))))
    by (vm_compute; reflexivity).
  assert (Hresp :
            Response_of_bytes (H:=Compact.protocol) (list_byte_of_string "oops") =
            inl (ValueError "missing field"))
    by (vm_compute; reflexivity).
  assert (Hfail :
            Failure_of_bytes (H:=Compact.protocol) (list_byte_of_string "oops") =
            inl (ValueError "missing field error"))
    by (vm_compute; reflexivity).
  split; [exact Ht|].
  exact (proj2 (query_decoding_failures (H:=Compact.protocol) _ _ _ _ _ _ Ht Hresp)
           eq_refl _ Hfail).
Defined.

(** ** The methods on an empty stack *)

Section MethodCases.
Context `{Protocol}.

Lemma goals_cases (self : t) :
  goals self =
  match deque_top (queue self) with
  | None => Raise (IndexError "deque index out of range") self
  | Some top =>
      match query (GoalsParams (State.id top)) 1024 self with
      | Return resp self1 =>
          match GoalsResponse_from_json (Response.result resp) with
          | inl e => Raise e self1
          | inr res => Return res self1
          end
      | Raise e self1 => Raise e self1
      | Block self1 => Block self1
      end
  end.
Proof.
  unfold goals, bind. rewrite current_state_cases.
  destruct (deque_top (queue self)) as [top|]; [|reflexivity].
  destruct (query _ _ self) as [resp self1|e self1|self1]; try reflexivity.
  unfold_monad.
  destruct (GoalsResponse_from_json (Response.result resp)); reflexivity.
Qed.

Lemma premises_cases (self : t) :
  premises self =
  match deque_top (queue self) with
  | None => Raise (IndexError "deque index out of range") self
  | Some top =>
      match query (PremisesParams (State.id top)) 1024 self with
      | Return resp self1 =>
          match PremisesResponse_from_json (Response.result resp) with
          | inl e => Raise e self1
          | inr res =>
              match PremisesValue_len (PremisesResponse_value res) with
              | inl e => Raise e self1
              | inr _ => Return (PremisesResponse_value res) self1
              end
          end
      | Raise e self1 => Raise e self1
      | Block self1 => Block self1
      end
  end.
Proof.
  unfold premises, bind. rewrite current_state_cases.
  destruct (deque_top (queue self)) as [top|]; [|reflexivity].
  destruct (query _ _ self) as [resp self1|e self1|self1]; try reflexivity.
  unfold_monad.
  destruct (PremisesResponse_from_json (Response.result resp)) as [e|res];
    [reflexivity|].
  destruct (PremisesValue_len (PremisesResponse_value res)); reflexivity.
Qed.

Lemma init_cases (root : string) (self : t) :
  init root self =
  match query (InitParams (path_as_uri root)) 1024 self with
  | Return resp self1 => Return tt (set_env (Response.result resp) self1)
  | Raise e self1 => Raise e self1
  | Block self1 => Block self1
  end.
Proof.
  unfold init. unfold_monad.
  destruct (query _ _ self); reflexivity.
Qed.
End MethodCases.

(** X10.  On an empty stack (before any [start], or once the last entry
    has been undone) [run_tac], [goals] and [premises] raise the
    IndexError of [self.queue[-1]] and do nothing else: no request is
    made, the counter does not move, the session is as it was. *)
Theorem empty_stack_raises_before_any_request `{Protocol} (tac : string) (self : t) :
  queue self = [] ->
  run_tac tac self = Raise (IndexError "deque index out of range") self /\
  goals self = Raise (IndexError "deque index out of range") self /\
  premises self = Raise (IndexError "deque index out of range") self.
Proof.
  intros Hq.
  rewrite run_tac_cases, goals_cases, premises_cases, Hq.
  repeat split.
Qed.

(** A client that was never started. *)
Lemma empty_stack_raises_before_any_request_witness :
  queue (__init__ "localhost" 8765 [] []) = [] /\
  run_tac (H:=Compact.protocol) "auto." (__init__ "localhost" 8765 [] []) =
    Raise (IndexError "deque index out of range") (__init__ "localhost" 8765 [] []).
Proof.
  split; [reflexivity|].
  exact (proj1 (empty_stack_raises_before_any_request (H:=Compact.protocol) "auto."
                  (__init__ "localhost" 8765 [] []) eq_refl)).
Defined.

(** X11.  Undoing the only entry leaves a session on which [run_tac]
    raises IndexError without a request, until [reset] or [start] is
    called. *)
Theorem run_tac_after_undoing_the_start `{Protocol}
  (tac : string) (self : t) (entry : State.t) :
  queue self = [entry] ->
  exists self',
    backtrack self = Return (State.id entry, State.action entry) self' /\
    run_tac tac self' = Raise (IndexError "deque index out of range") self' /\
    socket self' = socket self /\ id self' = id self.
Proof.
  intros Hq. exists (set_queue [] self).
  split; [exact (backtrack_top self [] entry Hq)|].
  rewrite run_tac_cases. simpl. repeat split.
Qed.

Lemma run_tac_after_undoing_the_start_witness :
  queue started_session = [State.mk (JInt 42) "Start"] /\
  exists self',
    backtrack started_session = Return (JInt 42, "Start") self' /\
    run_tac (H:=Compact.protocol) "auto." self' =
      Raise (IndexError "deque index out of range") self' /\
    socket self' = socket started_session /\ id self' = id started_session.
Proof.
  split; [reflexivity|].
  exact (run_tac_after_undoing_the_start (H:=Compact.protocol) "auto." started_session
           (State.mk (JInt 42) "Start") eq_refl).
Defined.

(** ** What each call sends and what it changes *)

Section Wire.
Context `{Protocol}.

Lemma query_wire (params : Params) (size : Z) (self : t) :
  known params = true ->
  exists request,
    mk_request (id self + 1) params = inr request /\
    Socket.sent (socket (final (query params size self))) =
      Socket.sent (socket self) ++ [payload request] /\
    id (final (query params size self)) = id self + 1.
Proof.
  intros Hknown.
  destruct (known_mk_request (id self + 1) params Hknown) as [request Hmk].
  exists request. split; [exact Hmk|].
  rewrite query_final_transmit.
  pose proof (transmit_sent params size self) as Hsent. rewrite Hmk in Hsent.
  split; [exact Hsent | apply transmit_final].
Qed.

Lemma final_then_ret {A : Type} (m : M A) (self : t) :
  final ((_ <- m ;; ret tt) self) = final (m self).
Proof. unfold bind, ret. destruct (m self); reflexivity. Qed.

Lemma init_final (root : string) (self : t) :
  socket (final (init root self)) =
    socket (final (query (InitParams (path_as_uri root)) 1024 self)) /\
  id (final (init root self)) =
    id (final (query (InitParams (path_as_uri root)) 1024 self)).
Proof.
  rewrite init_cases. destruct (query _ _ self); split; reflexivity.
Qed.

Lemma start_final (file thm : string) (self : t) :
  let asked :=
    final (query (StartParams (env self) (path_as_uri file) thm) 1024
             (set_queue [] (set_thm thm (set_file file self)))) in
  socket (final (start file thm self)) = socket asked /\
  id (final (start file thm self)) = id asked /\
  env (final (start file thm self)) = env asked /\
  Pytanque.file (final (start file thm self)) = Pytanque.file asked /\
  Pytanque.thm (final (start file thm self)) = Pytanque.thm asked /\
  host (final (start file thm self)) = host asked /\
  port (final (start file thm self)) = port asked.
Proof.
  rewrite start_cases. destruct (query _ _ _); repeat split.
Qed.

Lemma run_tac_final (tac : string) (self : t) (top : State.t) :
  deque_top (queue self) = Some top ->
  let asked := final (query (RunParams (State.id top) tac) 1024 self) in
  socket (final (run_tac tac self)) = socket asked /\
  id (final (run_tac tac self)) = id asked /\
  env (final (run_tac tac self)) = env asked /\
  file (final (run_tac tac self)) = file asked /\
  thm (final (run_tac tac self)) = thm asked /\
  host (final (run_tac tac self)) = host asked /\
  port (final (run_tac tac self)) = port asked.
Proof.
  intros Htop. rewrite run_tac_cases, Htop.
  destruct (query _ _ self) as [resp s1|e s1|s1]; simpl; try (repeat split; fail).
  destruct (RunResponse_from_json _) as [e|res]; simpl; [repeat split|].
  destruct (RunResponse.value res); repeat split.
Qed.

Lemma goals_final (self : t) (top : State.t) :
  deque_top (queue self) = Some top ->
  final (goals self) = final (query (GoalsParams (State.id top)) 1024 self).
Proof.
  intros Htop. rewrite goals_cases, Htop.
  destruct (query _ _ self) as [resp s1|e s1|s1]; simpl; try reflexivity.
  destruct (GoalsResponse_from_json _); reflexivity.
Qed.

Lemma premises_final (self : t) (top : State.t) :
  deque_top (queue self) = Some top ->
  final (premises self) = final (query (PremisesParams (State.id top)) 1024 self).
Proof.
  intros Htop. rewrite premises_cases, Htop.
  destruct (query _ _ self) as [resp s1|e s1|s1]; simpl; try reflexivity.
  destruct (PremisesResponse_from_json _) as [e|res]; [reflexivity|].
  destruct (PremisesValue_len _); reflexivity.
Qed.

Lemma exec_wire (c : call) (self : t) :
  match params_of c self with
  | Some params =>
      exists request,
        mk_request (id self + 1) params = inr request /\
        Socket.sent (socket (final (exec c self))) =
          Socket.sent (socket self) ++ [payload request] /\
        id (final (exec c self)) = id self + 1
  | None =>
      socket (final (exec c self)) = socket self /\
      id (final (exec c self)) = id self
  end.
Proof.
  destruct c as [root|f th|tac| | | |]; cbn [params_of exec].
  - destruct (init_final root self) as [-> ->].
    apply query_wire. reflexivity.
  - destruct (start_final f th self) as (-> & -> & _).
    apply (query_wire (StartParams (env self) (path_as_uri f) th) 1024
             (set_queue [] (set_thm th (set_file f self)))).
    reflexivity.
  - rewrite final_then_ret.
    destruct (deque_top (queue self)) as [top|] eqn:Etop; cbn [option_map].
    + destruct (run_tac_final tac self top Etop) as (-> & -> & _).
      apply query_wire. reflexivity.
    + rewrite run_tac_cases, Etop. split; reflexivity.
  - rewrite final_then_ret.
    destruct (deque_top (queue self)) as [top|] eqn:Etop; cbn [option_map].
    + rewrite (goals_final self top Etop). apply query_wire. reflexivity.
    + rewrite goals_cases, Etop. split; reflexivity.
  - rewrite final_then_ret.
    destruct (deque_top (queue self)) as [top|] eqn:Etop; cbn [option_map].
    + rewrite (premises_final self top Etop). apply query_wire. reflexivity.
    + rewrite premises_cases, Etop. split; reflexivity.
  - rewrite final_then_ret.
    rewrite (proj1 (backtrack_final self)). split; reflexivity.
  - rewrite reset_start.
    destruct (start_final (file self) (thm self) self) as (-> & -> & _).
    apply (query_wire (StartParams (env self) (path_as_uri (file self)) (thm self)) 1024
             (set_queue [] (set_thm (thm self) (set_file (file self) self)))).
    reflexivity.
Qed.
End Wire.

(** X12.  Every call makes at most one request, and it is the request of
    its kind: [init] sends the uri of the root; [start] sends the stored
    environment, the uri of the file and the theorem; [run_tac], [goals]
    and [premises] send the id on top of the stack; [reset] sends what
    [start] would send for the stored file and theorem.  The request goes
    out under the next id however the call ends.  [backtrack], and the
    three calls that need a state when the stack is empty, leave the
    socket and the counter alone. *)
Theorem call_sends_its_request `{Protocol} (c : call) (self : t) :
  match params_of c self with
  | Some params =>
      exists request,
        mk_request (id self + 1) params = inr request /\
        Socket.sent (socket (final (exec c self))) =
          Socket.sent (socket self) ++ [payload request] /\
        id (final (exec c self)) = id self + 1
  | None =>
      socket (final (exec c self)) = socket self /\
      id (final (exec c self)) = id self
  end.
Proof. apply exec_wire. Qed.

Section Frame.
Context `{Protocol}.

Lemma exec_frame (c : call) (self : t) :
  host (final (exec c self)) = host self /\
  port (final (exec c self)) = port self /\
  (is_Start c = false ->
   file (final (exec c self)) = file self /\ thm (final (exec c self)) = thm self) /\
  (is_Init c = false -> env (final (exec c self)) = env self).
Proof.
  destruct c as [root|f th|tac| | | |]; cbn [exec is_Start is_Init].
  - rewrite init_cases.
    pose proof (query_final (InitParams (path_as_uri root)) 1024 self)
      as [(_ & He & Hf & Ht & Hh & Hp) _].
    destruct (query _ _ self); simpl in *; repeat split; auto; discriminate.
  - destruct (start_final f th self) as (_ & _ & -> & _ & _ & -> & ->).
    pose proof (query_final (StartParams (env self) (path_as_uri f) th) 1024
                  (set_queue [] (set_thm th (set_file f self))))
      as [(_ & He & _ & _ & Hh & Hp) _].
    simpl in *. repeat split; auto; discriminate.
  - rewrite final_then_ret.
    destruct (deque_top (queue self)) as [top|] eqn:Etop.
    + destruct (run_tac_final tac self top Etop) as (_ & _ & -> & -> & -> & -> & ->).
      pose proof (query_final (RunParams (State.id top) tac) 1024 self)
        as [(_ & He & Hf & Ht & Hh & Hp) _].
      repeat split; auto.
    + rewrite run_tac_cases, Etop. repeat split.
  - rewrite final_then_ret.
    destruct (deque_top (queue self)) as [top|] eqn:Etop.
    + rewrite (goals_final self top Etop).
      pose proof (query_final (GoalsParams (State.id top)) 1024 self)
        as [(_ & He & Hf & Ht & Hh & Hp) _].
      repeat split; auto.
    + rewrite goals_cases, Etop. repeat split.
  - rewrite final_then_ret.
    destruct (deque_top (queue self)) as [top|] eqn:Etop.
    + rewrite (premises_final self top Etop).
      pose proof (query_final (PremisesParams (State.id top)) 1024 self)
        as [(_ & He & Hf & Ht & Hh & Hp) _].
      repeat split; auto.
    + rewrite premises_cases, Etop. repeat split.
  - rewrite final_then_ret, (proj1 (backtrack_final self)). repeat split.
  - rewrite reset_start.
    destruct (start_final (file self) (thm self) self)
      as (_ & _ & -> & -> & -> & -> & ->).
    pose proof (query_final (StartParams (env self) (path_as_uri (file self)) (thm self))
                  1024 (set_queue [] (set_thm (thm self) (set_file (file self) self))))
      as [(_ & He & Hf & Ht & Hh & Hp) _].
    simpl in *. repeat split; auto.
Qed.

Lemma run_cons (c : call) (calls : list call) (self : t) :
  run (c :: calls) self = run calls (final (exec c self)) \/
  run (c :: calls) self = final (exec c self).
Proof.
  simpl. destruct (exec c self); simpl; auto.
Qed.

Lemma run_frame (calls : list call) :
  forall self,
    host (run calls self) = host self /\
    port (run calls self) = port self /\
    (forallb (fun c => negb (is_Start c)) calls = true ->
     file (run calls self) = file self /\ thm (run calls self) = thm self) /\
    (forallb (fun c => negb (is_Init c)) calls = true ->
     env (run calls self) = env self).
Proof.
  induction calls as [|c calls IH]; intros self; [repeat split|].
  destruct (exec_frame c self) as (Hh & Hp & Hft & He).
  destruct (IH (final (exec c self))) as (IHh & IHp & IHft & IHe).
  destruct (run_cons c calls self) as [-> | ->].
  - split; [congruence|]. split; [congruence|]. split.
    + simpl. intros Hall. apply andb_true_iff in Hall as [Hc Hall].
      apply negb_true_iff in Hc.
      destruct (Hft Hc) as [Hf Ht]. destruct (IHft Hall) as [IHf IHt].
      split; congruence.
    + simpl. intros Hall. apply andb_true_iff in Hall as [Hc Hall].
      apply negb_true_iff in Hc.
      rewrite (IHe Hall). exact (He Hc).
  - split; [exact Hh|]. split; [exact Hp|]. split.
    + simpl. intros Hall. apply andb_true_iff in Hall as [Hc _].
      apply negb_true_iff in Hc. exact (Hft Hc).
    + simpl. intros Hall. apply andb_true_iff in Hall as [Hc _].
      apply negb_true_iff in Hc. exact (He Hc).
Qed.
End Frame.

(** X13.  [init] stores the [result] of the response as the environment
    handle when it returns, with nothing that keeps a second call from
    replacing the handle of the first; when it does not return, the
    handle is the one the session had.  The stack, the file and the
    theorem are never touched. *)
Theorem init_stores_the_result `{Protocol} (root : string) (self : t) :
  match init root self with
  | Return _ self' =>
      exists resp self1,
        query (InitParams (path_as_uri root)) 1024 self = Return resp self1 /\
        Response.id resp = id self + 1 /\
        self' = set_env (Response.result resp) self1
  | Raise _ self' => env self' = env self
  | Block self' => env self' = env self
  end /\
  queue (final (init root self)) = queue self /\
  file (final (init root self)) = file self /\
  thm (final (init root self)) = thm self.
Proof.
  split.
  - rewrite init_cases.
    pose proof (query_final (InitParams (path_as_uri root)) 1024 self)
      as [(_ & He & _) _].
    pose proof (query_Return_id (InitParams (path_as_uri root)) 1024 self) as Hid.
    destruct (query _ _ self) as [resp s1|e s1|s1]; simpl in *; auto.
    exists resp, s1. repeat split. exact (Hid s1 resp eq_refl).
  - split; [apply init_queue|].
    exact (proj1 (proj2 (proj2 (exec_frame (Init root) self))) eq_refl).
Qed.

(** X14.  [start] stores the file and the theorem before it makes its
    request: they are the stored ones however the call ends, so that a
    [reset] after a [start] that failed asks for the new file and theorem.
    The environment handle is not changed. *)
Theorem start_stores_file_and_theorem `{Protocol} (file thm : string) (self : t) :
  Pytanque.file (final (start file thm self)) = file /\
  Pytanque.thm (final (start file thm self)) = thm /\
  env (final (start file thm self)) = env self /\
  params_of Reset (final (start file thm self)) =
    Some (StartParams (env self) (path_as_uri file) thm).
Proof.
  destruct (start_final file thm self) as (_ & _ & He & Hf & Ht & _).
  pose proof (query_final (StartParams (env self) (path_as_uri file) thm) 1024
                (set_queue [] (set_thm thm (set_file file self))))
    as [(_ & He' & Hf' & Ht' & _) _].
  simpl in *.
  assert (Hfile : Pytanque.file (final (start file thm self)) = file) by congruence.
  assert (Hthm : Pytanque.thm (final (start file thm self)) = thm) by congruence.
  assert (Henv : env (final (start file thm self)) = env self) by congruence.
  repeat split; auto.
  cbn [params_of]. rewrite Hfile, Hthm, Henv. reflexivity.
Qed.

(** X15.  What a sequence of calls can change.  The host and the port
    never change.  The stored file and theorem change only in [start]:
    without a [start] among the calls they are the ones the session had.
    The environment handle changes only in [init]. *)
Theorem calls_change_only_their_fields `{Protocol} (calls : list call) (self : t) :
  host (run calls self) = host self /\
  port (run calls self) = port self /\
  (forallb (fun c => negb (is_Start c)) calls = true ->
   file (run calls self) = file self /\ thm (run calls self) = thm self) /\
  (forallb (fun c => negb (is_Init c)) calls = true ->
   env (run calls self) = env self).
Proof. apply run_frame. Qed.

Lemma calls_change_only_their_fields_witness :
  forallb (fun c => negb (is_Start c)) [RunTac "intro x."; Backtrack; Reset; Goals] = true /\
  file (run (H:=Compact.protocol) [RunTac "intro x."; Backtrack; Reset; Goals]
          (awaiting [] [Compact.reply "3 CurrentState 43"])) =
  file (awaiting [] [Compact.reply "3 CurrentState 43"]).
Proof.
  split; [reflexivity|].
  exact (proj1 (proj1 (proj2 (proj2
           (calls_change_only_their_fields (H:=Compact.protocol)
              [RunTac "intro x."; Backtrack; Reset; Goals]
              (awaiting [] [Compact.reply "3 CurrentState 43"]))))
           eq_refl)).
Defined.

(** X16.  [reset] starts again what the last [start] started: after a
    [start], and any calls that are neither a [start] nor an [init], the
    request [reset] makes has the parameters that [start] had, and goes
    out under the next id. *)
Theorem reset_repeats_the_last_start `{Protocol}
  (file thm : string) (calls : list call) (self : t) :
  forallb (fun c => negb (is_Start c)) calls = true ->
  forallb (fun c => negb (is_Init c)) calls = true ->
  let session := run calls (final (start file thm self)) in
  params_of Reset session = params_of (Start file thm) self /\
  exists request,
    mk_request (id session + 1) (StartParams (env self) (path_as_uri file) thm) =
      inr request /\
    Socket.sent (socket (final (reset session))) =
      Socket.sent (socket session) ++ [payload request].
Proof.
  intros Hstart Hinit session.
  destruct (run_frame calls (final (start file thm self))) as (_ & _ & Hft & He).
  destruct (Hft Hstart) as [Hf Ht]. specialize (He Hinit).
  destruct (start_final file thm self) as (_ & _ & He0 & Hf0 & Ht0 & _).
  pose proof (query_final (StartParams (env self) (path_as_uri file) thm) 1024
                (set_queue [] (set_thm thm (set_file file self))))
    as [(_ & He' & Hf' & Ht' & _) _].
  simpl in *.
  assert (Hparams : params_of Reset session =
                    Some (StartParams (env self) (path_as_uri file) thm)).
  { cbn [params_of]. unfold session. rewrite Hf, Ht, He. congruence. }
  split; [exact Hparams|].
  pose proof (exec_wire Reset session) as Hwire. rewrite Hparams in Hwire.
  destruct Hwire as (request & Hmk & Hsent & _).
  exists request. split; [exact Hmk | exact Hsent].
Qed.

Lemma reset_repeats_the_last_start_witness :
  params_of (H:=Compact.protocol) Reset
    (run (H:=Compact.protocol) [RunTac "intro x."; Goals]
       (final (start (H:=Compact.protocol) "/proj/b.v" "bar"
                 (awaiting [] [Compact.reply "3 int 50"; Compact.reply "4 CurrentState 51";
                               Compact.reply "5 int 0"])))) =
  params_of (H:=Compact.protocol) (Start "/proj/b.v" "bar")
    (awaiting [] [Compact.reply "3 int 50"; Compact.reply "4 CurrentState 51";
                  Compact.reply "5 int 0"]).
Proof.
  exact (proj1 (reset_repeats_the_last_start (H:=Compact.protocol) "/proj/b.v" "bar"
                  [RunTac "intro x."; Goals]
                  (awaiting [] [Compact.reply "3 int 50"; Compact.reply "4 CurrentState 51";
                                Compact.reply "5 int 0"])
                  eq_refl eq_refl)).
Defined.

(** ** The history *)

(** X17.  [backtrack] makes the state before the undone step current:
    with at least two entries on the stack, it returns the top entry and
    the next [run_tac], [goals] or [premises] is asked of the state of the
    entry below it. *)
Theorem backtrack_makes_previous_state_current `{Protocol}
  (tac : string) (self : t) (rest : list State.t) (prev top : State.t) :
  queue self = rest ++ [prev; top] ->
  exists self',
    backtrack self = Return (State.id top, State.action top) self' /\
    queue self' = rest ++ [prev] /\
    current_state self' = Return (State.id prev) self' /\
    params_of (RunTac tac) self' = Some (RunParams (State.id prev) tac) /\
    params_of Goals self' = Some (GoalsParams (State.id prev)) /\
    params_of Premises self' = Some (PremisesParams (State.id prev)).
Proof.
  intros Hq. exists (set_queue (rest ++ [prev]) self).
  split.
  - apply backtrack_top. rewrite Hq, <- app_assoc. reflexivity.
  - split; [reflexivity|].
    rewrite current_state_cases. cbn [params_of]. simpl queue.
    rewrite deque_top_app. repeat split.
Qed.

Lemma backtrack_makes_previous_state_current_witness :
  queue (final (run_tac (H:=Compact.protocol) "intro x."
                  (awaiting [] [Compact.reply "3 CurrentState 43"]))) =
    [] ++ [State.mk (JInt 42) "Start"; State.mk (JInt 43) "intro x."] /\
  exists self',
    backtrack (final (run_tac (H:=Compact.protocol) "intro x."
                        (awaiting [] [Compact.reply "3 CurrentState 43"]))) =
      Return (JInt 43, "intro x.") self' /\
    current_state self' = Return (JInt 42) self'.
Proof.
  assert (Hq : queue (final (run_tac (H:=Compact.protocol) "intro x."
                               (awaiting [] [Compact.reply "3 CurrentState 43"]))) =
               [] ++ [State.mk (JInt 42) "Start"; State.mk (JInt 43) "intro x."])
    by (vm_compute; reflexivity).
  split; [exact Hq|].
  destruct (backtrack_makes_previous_state_current (H:=Compact.protocol) "auto."
              _ _ _ _ Hq) as (self' & Hback & _ & Hcur & _).
  exists self'. split; [exact Hback | exact Hcur].
Defined.

Lemma undo_entries (entries : list State.t) :
  forall (base : list State.t) (self : t),
    queue self = base ++ entries ->
    undo (List.length entries) self =
    (rev (map (fun st => (State.id st, State.action st)) entries),
     set_queue base self).
Proof.
  induction entries as [|st entries IH] using rev_ind; intros base self Hq.
  - simpl. rewrite app_nil_r in Hq. rewrite <- Hq. destruct self; reflexivity.
  - rewrite length_app, Nat.add_comm. simpl.
    rewrite (backtrack_top self (base ++ entries) st)
      by (rewrite Hq, app_assoc; reflexivity).
    rewrite (IH base (set_queue (base ++ entries) self) eq_refl).
    rewrite map_app, rev_app_distr. simpl. reflexivity.
Qed.

(** X18.  Steps are undone last first: as many [backtrack] calls as there
    are entries above some point of the stack return those entries from
    the top down, each with its id and action, and leave the stack below
    that point, the rest of the session as it was. *)
Theorem backtracks_return_entries_in_reverse
  (base entries : list State.t) (self : t) :
  queue self = base ++ entries ->
  undo (List.length entries) self =
  (rev (map (fun st => (State.id st, State.action st)) entries),
   set_queue base self).
Proof. apply undo_entries. Qed.

Lemma backtracks_return_entries_in_reverse_witness :
  undo 2
    (set_queue ([State.mk (JInt 42) "Start"] ++
                [State.mk (JInt 43) "intro x."; State.mk (JInt 44) "reflexivity."])
       started_session) =
  ([(JInt 44, "reflexivity."); (JInt 43, "intro x.")], started_session).
Proof.
  exact (backtracks_return_entries_in_reverse [State.mk (JInt 42) "Start"]
           [State.mk (JInt 43) "intro x."; State.mk (JInt 44) "reflexivity."]
           (set_queue ([State.mk (JInt 42) "Start"] ++
                       [State.mk (JInt 43) "intro x."; State.mk (JInt 44) "reflexivity."])
              started_session)
           eq_refl).
Defined.

Section History.
Context `{Protocol}.

(** What a call that keeps the history adds to the stack. *)
Lemma exec_actions (c : call) (self : t) :
  keeps_history c = true ->
  match exec c self with
  | Return _ self' =>
      map State.action (queue self') = map State.action (queue self) ++ tactic_of c
  | Raise _ self' => queue self' = queue self
  | Block self' => queue self' = queue self
  end.
Proof.
  intros Hk. pose proof (exec_keeps_history c self Hk) as Hlen.
  destruct c as [root|f th|tac| | | |]; try discriminate; cbn [exec tactic_of] in *.
  - pose proof (init_queue root self) as Hq.
    destruct (init root self); simpl in *; try exact Hlen.
    rewrite Hq, app_nil_r. reflexivity.
  - unfold bind, ret in *.
    pose proof (run_tac_Return tac self) as Hret.
    destruct (run_tac tac self) as [v s1|e s1|s1]; try exact Hlen.
    destruct (Hret s1 v eq_refl) as (new_id & _ & Hq & _).
    rewrite Hq, map_app. reflexivity.
  - unfold bind, ret in *. pose proof (goals_queue self) as Hq.
    destruct (goals self); simpl in *; try exact Hlen.
    rewrite Hq, app_nil_r. reflexivity.
  - unfold bind, ret in *. pose proof (premises_queue self) as Hq.
    destruct (premises self); simpl in *; try exact Hlen.
    rewrite Hq, app_nil_r. reflexivity.
Qed.

Lemma run_actions (calls : list call) :
  forall self,
    forallb keeps_history calls = true ->
    map State.action (queue (run calls self)) =
    map State.action (queue self) ++ flat_map tactic_of (returned calls self).
Proof.
  induction calls as [|c calls IH]; intros self Hall; simpl.
  - rewrite app_nil_r. reflexivity.
  - simpl in Hall. apply andb_true_iff in Hall as [Hc Hall].
    pose proof (exec_actions c self Hc) as Hk.
    destruct (exec c self) as [[] s1|e s1|s1].
    + rewrite (IH s1 Hall), Hk. simpl. rewrite <- app_assoc. reflexivity.
    + rewrite (IH s1 Hall), Hk. reflexivity.
    + rewrite Hk, app_nil_r. reflexivity.
Qed.
End History.

(** X19.  The stack is the record of the proof script: after a [start]
    that returned, and any [run_tac], [goals], [premises] and [init]
    calls, the actions on the stack are "Start" followed by the tactics of
    the [run_tac] calls that returned, in the order they were made.  A
    tactic that failed leaves no trace. *)
Theorem stack_records_the_tactics_that_succeeded `{Protocol}
  (file thm : string) (self self0 : t) (calls : list call) :
  start file thm self = Return tt self0 ->
  forallb keeps_history calls = true ->
  map State.action (queue (run calls self0)) =
  "Start" :: flat_map tactic_of (returned calls self0).
Proof.
  intros Hstart Hall.
  pose proof (start_queue file thm self) as Hq. rewrite Hstart in Hq.
  destruct Hq as [first Hq].
  rewrite (run_actions calls self0 Hall), Hq. reflexivity.
Qed.

Lemma stack_records_the_tactics_that_succeeded_witness :
  map State.action
    (queue (run (H:=Compact.protocol) [RunTac "intros."; RunTac "oops."; Goals; RunTac "auto."]
              (final (start (H:=Compact.protocol) "/proj/b.v" "bar"
                        (awaiting []
                           [Compact.reply "3 int 50"; Compact.reply "4 CurrentState 51";
                            Compact.reply "error no"; Compact.reply "6 int 0";
                            Compact.reply "7 ProofFinished 52"]))))) =
  "Start" ::
  flat_map tactic_of
    (returned (H:=Compact.protocol) [RunTac "intros."; RunTac "oops."; Goals; RunTac "auto."]
       (final (start (H:=Compact.protocol) "/proj/b.v" "bar"
                 (awaiting []
                    [Compact.reply "3 int 50"; Compact.reply "4 CurrentState 51";
                     Compact.reply "error no"; Compact.reply "6 int 0";
                     Compact.reply "7 ProofFinished 52"])))).
Proof.
  assert (Hstart :
            start (H:=Compact.protocol) "/proj/b.v" "bar"
              (awaiting []
                 [Compact.reply "3 int 50"; Compact.reply "4 CurrentState 51";
                  Compact.reply "error no"; Compact.reply "6 int 0";
                  Compact.reply "7 ProofFinished 52"]) =
            Return tt
              (final (start (H:=Compact.protocol) "/proj/b.v" "bar"
                        (awaiting []
                           [Compact.reply "3 int 50"; Compact.reply "4 CurrentState 51";
                            Compact.reply "error no"; Compact.reply "6 int 0";
                            Compact.reply "7 ProofFinished 52"]))))
    by (vm_compute; reflexivity).
  exact (stack_records_the_tactics_that_succeeded (H:=Compact.protocol) _ _ _ _
           [RunTac "intros."; RunTac "oops."; Goals; RunTac "auto."] Hstart eq_refl).
Defined.

Example stack_records_example :
  flat_map tactic_of
    (returned (H:=Compact.protocol) [RunTac "intros."; RunTac "oops."; Goals; RunTac "auto."]
       (final (start (H:=Compact.protocol) "/proj/b.v" "bar"
                 (awaiting []
                    [Compact.reply "3 int 50"; Compact.reply "4 CurrentState 51";
                     Compact.reply "error no"; Compact.reply "6 int 0";
                     Compact.reply "7 ProofFinished 52"])))) =
  ["intros."; "auto."].
Proof. vm_compute. reflexivity. Qed.

(** ** The message of an id mismatch *)

Lemma no_comma_app (s s' : string) :
  no_comma (s ++ s')%string = no_comma s && no_comma s'.
Proof.
  induction s as [|c s IH]; simpl; [reflexivity|].
  rewrite IH, andb_assoc. reflexivity.
Qed.

Lemma no_comma_uint (d : Decimal.uint) :
  no_comma (NilEmpty.string_of_uint d) = true.
Proof. induction d; simpl; auto. Qed.

Lemma no_comma_str_of_int (n : Z) : no_comma (str_of_int n) = true.
Proof.
  unfold str_of_int, NilZero.string_of_int, NilZero.string_of_uint.
  destruct (Z.to_int n) as [d|d]; destruct d; simpl; auto using no_comma_uint.
Qed.

Lemma str_of_int_inj (a b : Z) : str_of_int a = str_of_int b -> a = b.
Proof.
  unfold str_of_int. intros Heq.
  assert (Hnil : forall n, Z.to_int n <> Decimal.Pos Decimal.Nil /\
                           Z.to_int n <> Decimal.Neg Decimal.Nil).
  { intros [|p|p]; simpl; split; try discriminate;
      intros Hp; inversion Hp as [Hu];
      exact (DecimalPos.Unsigned.to_uint_nonnil p Hu). }
  apply DecimalZ.to_int_inj.
  assert (Hsome : Some (Z.to_int a) = Some (Z.to_int b)).
  { rewrite <- (NilZero.isi (Z.to_int a)) by apply Hnil.
    rewrite <- (NilZero.isi (Z.to_int b)) by apply Hnil.
    rewrite Heq. reflexivity. }
  inversion Hsome. reflexivity.
Qed.

(** Two texts cut at their first comma. *)
Lemma first_comma (s s' r r' : string) :
  no_comma s = true -> no_comma s' = true ->
  (s ++ String "," r)%string = (s' ++ String "," r')%string ->
  s = s' /\ r = r'.
Proof.
  revert s'. induction s as [|c s IH]; intros [|c' s'] Hs Hs' Heq; simpl in *.
  - inversion Heq. auto.
  - inversion Heq; subst c'. rewrite Ascii.eqb_refl in Hs'. discriminate.
  - inversion Heq; subst c. rewrite Ascii.eqb_refl in Hs. discriminate.
  - inversion Heq; subst c'.
    apply andb_true_iff in Hs as [_ Hs]. apply andb_true_iff in Hs' as [_ Hs'].
    destruct (IH s' Hs Hs' H1) as [-> ->]. auto.
Qed.

Lemma mismatch_message_inj (sent_id got_id sent_id' got_id' : Z) :
  mismatch_message sent_id got_id = mismatch_message sent_id' got_id' ->
  sent_id = sent_id' /\ got_id = got_id'.
Proof.
  unfold mismatch_message. intros Heq.
  simpl in Heq. repeat (injection Heq as Heq).
  change (", got response " ++ str_of_int got_id)%string
    with (String "," (" got response " ++ str_of_int got_id))%string in Heq.
  change (", got response " ++ str_of_int got_id')%string
    with (String "," (" got response " ++ str_of_int got_id'))%string in Heq.
  destruct (first_comma _ _ _ _ (no_comma_str_of_int sent_id)
              (no_comma_str_of_int sent_id') Heq) as [Hsent Hgot].
  simpl in Hgot. repeat (injection Hgot as Hgot).
  split; apply str_of_int_inj; assumption.
Qed.

(** X20.  The message of an id mismatch tells both ids.  When [query]
    raises on a Response with another id, whatever pair of numbers the
    text "Sent request <a>, got response <b>" of the error reads as is
    the id the request was sent with and the id the response carried. *)
Theorem mismatch_message_tells_both_ids `{Protocol}
  (params : Params) (size : Z) (self self1 : t) (raw : bytes) (resp : Response.t)
  (a b : Z) :
  transmit params size self = Return raw self1 ->
  Response_of_bytes raw = inr resp ->
  Response.id resp <> id self1 ->
  query params size self = Raise (PetanqueError (mismatch_message a b)) self1 ->
  a = id self + 1 /\ b = Response.id resp.
Proof.
  intros Ht Hresp Hneq Hq.
  pose proof (transmit_final params size self) as [_ Hid].
  rewrite Ht in Hid; simpl in Hid.
  rewrite query_cases, Ht, parse_reply_cases, Hresp in Hq.
  destruct (Z.eqb_spec (Response.id resp) (id self1)); [contradiction|].
  assert (Hmsg : mismatch_message (id self1) (Response.id resp) = mismatch_message a b)
    by congruence.
  destruct (mismatch_message_inj _ _ _ _ Hmsg) as [Ha Hb].
  split; congruence.
Qed.

Lemma mismatch_message_tells_both_ids_witness :
  query (H:=Compact.protocol) (GoalsParams (JInt 42)) 1024
    (awaiting [] [Compact.reply "7 int 0"]) =
  Raise (PetanqueError (mismatch_message 3 7))
    (final (transmit (H:=Compact.protocol) (GoalsParams (JInt 42)) 1024
              (awaiting [] [Compact.reply "7 int 0"]))) /\
  3 = id (awaiting [] [Compact.reply "7 int 0"]) + 1 /\
  7 = Response.id (Response.mk 7 (JInt 0)).
Proof.
  assert (Ht :
            transmit (H:=Compact.protocol) (GoalsParams (JInt 42)) 1024
              (awaiting [] [Compact.reply "7 int 0"]) =
            Return (list_byte_of_string "7 int 0")
              (final (transmit (H:=Compact.protocol) (GoalsParams (JInt 42)) 1024
                        (awaiting [] [Compact.reply "7 int 0"]))))
    by (vm_compute; reflexivity).
  assert (Hresp :
            Response_of_bytes (H:=Compact.protocol) (list_byte_of_string "7 int 0") =
            inr (Response.mk 7 (JInt 0)))
    by (vm_compute; reflexivity).
  assert (Hneq :
            Response.id (Response.mk 7 (JInt 0)) <>
            id (final (transmit (H:=Compact.protocol) (GoalsParams (JInt 42)) 1024
                         (awaiting [] [Compact.reply "7 int 0"]))))
    by (vm_compute; discriminate).
  assert (Hq :
            query (H:=Compact.protocol) (GoalsParams (JInt 42)) 1024
              (awaiting [] [Compact.reply "7 int 0"]) =
            Raise (PetanqueError (mismatch_message 3 7))
              (final (transmit (H:=Compact.protocol) (GoalsParams (JInt 42)) 1024
                        (awaiting [] [Compact.reply "7 int 0"]))))
    by (vm_compute; reflexivity).
  split; [exact Hq|].
  exact (mismatch_message_tells_both_ids (H:=Compact.protocol) _ _ _ _ _ _ 3 7
           Ht Hresp Hneq Hq).
Defined.

Example mismatch_message_example :
  mismatch_message 3 (-12) = "Sent request 3, got response -12".
Proof. reflexivity. Qed.

(** ** goals and premises *)

(** X21.  [goals] returns what the decoder makes of the [result] of the
    response to its request, asked of the state on top of the stack, and
    returns only then.  [premises] returns the [value] of what it decoded,
    and only when that value has a length: the log line takes
    [len(res.value)] before the return, and when that raises (a value
    without a length) [premises] raises the same exception, the request
    made and answered.  However they end, the stack, the environment
    handle, the file and the theorem are the ones the session had. *)
Theorem goals_and_premises_return_the_decoded_result `{Protocol} (self self' : t) :
  (forall res,
      goals self = Return res self' <->
      exists top resp,
        deque_top (queue self) = Some top /\
        query (GoalsParams (State.id top)) 1024 self = Return resp self' /\
        GoalsResponse_from_json (Response.result resp) = inr res) /\
  (forall v,
      premises self = Return v self' <->
      exists top resp res n,
        deque_top (queue self) = Some top /\
        query (PremisesParams (State.id top)) 1024 self = Return resp self' /\
        PremisesResponse_from_json (Response.result resp) = inr res /\
        PremisesValue_len (PremisesResponse_value res) = inr n /\
        v = PremisesResponse_value res) /\
  (forall top resp res e,
      deque_top (queue self) = Some top ->
      query (PremisesParams (State.id top)) 1024 self = Return resp self' ->
      PremisesResponse_from_json (Response.result resp) = inr res ->
      PremisesValue_len (PremisesResponse_value res) = inl e ->
      premises self = Raise e self') /\
  same_session self (final (goals self)) /\
  same_session self (final (premises self)).
Proof.
  split; [|split; [|split; [|split]]].
  - intros res. rewrite goals_cases. split.
    + destruct (deque_top (queue self)) as [top|] eqn:Etop; [|discriminate].
      destruct (query _ _ self) as [resp s1|e s1|s1] eqn:Eq; try discriminate.
      destruct (GoalsResponse_from_json _) as [e|r] eqn:Er; [discriminate|].
      intros Hr; inversion Hr; subst. exists top, resp.
      split; [reflexivity|]. split; [exact Eq | exact Er].
    + intros (top & resp & -> & -> & ->). reflexivity.
  - intros v. rewrite premises_cases. split.
    + destruct (deque_top (queue self)) as [top|] eqn:Etop; [|discriminate].
      destruct (query _ _ self) as [resp s1|e s1|s1] eqn:Eq; try discriminate.
      destruct (PremisesResponse_from_json _) as [e|r] eqn:Er; [discriminate|].
      destruct (PremisesValue_len _) as [e|n] eqn:En; [discriminate|].
      intros Hr; inversion Hr; subst. exists top, resp, r, n.
      split; [reflexivity|]. split; [exact Eq|]. split; [exact Er|].
      split; [exact En | reflexivity].
    + intros (top & resp & res & n & -> & -> & -> & -> & ->). reflexivity.
  - intros top resp res e Htop Hq Hres Hlen.
    rewrite premises_cases, Htop, Hq, Hres, Hlen. reflexivity.
  - destruct (deque_top (queue self)) as [top|] eqn:Etop.
    + rewrite (goals_final self top Etop). apply query_final.
    + rewrite goals_cases, Etop. repeat split.
  - destruct (deque_top (queue self)) as [top|] eqn:Etop.
    + rewrite (premises_final self top Etop). apply query_final.
    + rewrite premises_cases, Etop. repeat split.
Qed.

(** A list of two premises. *)
Lemma goals_and_premises_return_the_decoded_result_witness :
  premises (H:=Compact.protocol) (awaiting [] [Compact.reply "3 list 2"]) =
  Return (JList [JNull; JNull])
    (final (query (H:=Compact.protocol) (PremisesParams (JInt 42)) 1024
              (awaiting [] [Compact.reply "3 list 2"]))).
Proof.
  apply (proj2 (proj1 (proj2 (goals_and_premises_return_the_decoded_result
                                (H:=Compact.protocol) _ _)) (JList [JNull; JNull]))).
  exists (State.mk (JInt 42) "Start"), (Response.mk 3 (JList [JNull; JNull])),
    (JList [JNull; JNull]), 2.
  split; [vm_compute; reflexivity|]. split; [vm_compute; reflexivity|].
  split; [vm_compute; reflexivity|]. split; vm_compute; reflexivity.
Defined.

(** A value without a length: the request is made and answered, and the
    TypeError of [len] is what the caller gets. *)
Example premises_value_without_length :
  premises (H:=Compact.protocol) (awaiting [] [Compact.reply "3 int 0"]) =
  Raise (OtherException "TypeError" "object has no len()")
    (final (query (H:=Compact.protocol) (PremisesParams (JInt 42)) 1024
              (awaiting [] [Compact.reply "3 int 0"]))).
Proof. vm_compute. reflexivity. Qed.

Example goals_returns_the_result :
  goals (H:=Compact.protocol) (awaiting [] [Compact.reply "3 int 0"]) =
  Return (JInt 0)
    (final (query (H:=Compact.protocol) (GoalsParams (JInt 42)) 1024
              (awaiting [] [Compact.reply "3 int 0"]))).
Proof. vm_compute. reflexivity. Qed.
